(** * comic_library: the offline asset cache (service worker) and the
    "largest of three" exercise program

    A shallow embedding of

    - the service worker of [comic_pwa] (constants [cacheName] and [assets],
      the [install] handler and the [fetch] handler), and
    - the Java exercise [Main] (methods [greet] and [main]),

    together with the properties the specification states about them.

    The worker is two promise chains over the browser's cache storage and
    network.  Promises are modelled as a state-and-error monad over a
    [World]: the cache storage (all named stores, in creation order), the
    log of network calls made so far, and the lifecycle state of the
    worker. *)

From Stdlib Require Import ZArith Lia Ascii String DecimalString DecimalPos.
From stdpp Require Import base option list strings gmap.

Local Open Scope Z_scope.

(** ** Requests and responses *)

(** A request identity: method and URL.  URLs are taken as already resolved
    against the worker's origin, so a manifest path is the URL itself. *)
Record Request := mkRequest { method : string; url : string }.

(** A stored or fetched response. *)
Record Response := mkResponse {
  status : Z;
  headers : list (string * string);
  body : string
}.

#[global] Instance Request_eq_dec : EqDecision Request.
Proof. solve_decision. Defined.

#[global] Instance Response_eq_dec : EqDecision Response.
Proof. solve_decision. Defined.

#[global] Instance Request_countable : Countable Request.
Proof.
  refine (inj_countable' (fun r => (method r, url r))
                         (fun p => mkRequest p.1 p.2) _).
  intros [m u]; reflexivity.
Defined.

(** [new Request(path)]: what [addAll] builds from a manifest entry. *)
Definition Request_of (path : string) : Request := mkRequest "GET" path.

(** ** The world the handlers run in *)

(** One named store: request identity to response. *)
Abbreviation Cache := (gmap Request Response).

(** The origin's cache storage: the named stores in creation order (the
    order [caches.match] searches them in). *)
Definition CacheStorage := list (string * Cache).

(** The states of section 4.1 of the specification. *)
Inductive Lifecycle := Uninstalled | Installing | Active | Terminated.

(** One call to the network: the request and what came back ([None] is a
    network error). *)
Definition NetCall : Type := Request * option Response.

Record World := mkWorld {
  caches : CacheStorage;
  netlog : list NetCall;
  worker : Lifecycle
}.

Definition set_caches (cs : CacheStorage) (w : World) : World :=
  mkWorld cs (netlog w) (worker w).

Definition set_worker (s : Lifecycle) (w : World) : World :=
  mkWorld (caches w) (netlog w) s.

(** Nothing stored, nothing fetched, no worker installed. *)
Definition fresh_world : World := mkWorld [] [] Uninstalled.

(** Why a promise was rejected. *)
Inductive Rejection :=
  | NetworkError (req : Request)
  | BadResponse (req : Request) (resp : Response).

Inductive Settled (A : Type) :=
  | Fulfilled (a : A)
  | Rejected (e : Rejection).
Arguments Fulfilled {A} a.
Arguments Rejected {A} e.

(** A promise, run to its settlement: the result and the world after it. *)
Definition Promise (A : Type) : Type := World -> Settled A * World.

Definition resolve {A} (a : A) : Promise A := fun w => (Fulfilled a, w).

(** [p.then(f)]: a rejection of [p] skips [f]. *)
Definition then_ {A B} (p : Promise A) (f : A -> Promise B) : Promise B :=
  fun w =>
    match p w with
    | (Fulfilled a, w') => f a w'
    | (Rejected e, w') => (Rejected e, w')
    end.

Notation "p >>= f" := (then_ p f) (at level 50, left associativity).

(** The network calls a promise makes when run from [w]. *)
Definition fetched_during {A} (p : Promise A) (w : World) : list NetCall :=
  drop (length (netlog w)) (netlog (p w).2).

(** ** Cache storage operations

    The browser's cache storage is not part of the repository; these are
    the operations the Store API of the specification relies on. *)

(** Modelled from the spec: the store a name identifies. *)
Fixpoint storage_find (name : string) (cs : CacheStorage) : option Cache :=
  match cs with
  | [] => None
  | (n, c) :: cs' => if decide (n = name) then Some c else storage_find name cs'
  end.

(** Modelled from the spec: a write to the store a name identifies. *)
Fixpoint storage_update (name : string) (f : Cache -> Cache)
    (cs : CacheStorage) : CacheStorage :=
  match cs with
  | [] => []
  | (n, c) :: cs' =>
      if decide (n = name) then (n, f c) :: cs'
      else (n, c) :: storage_update name f cs'
  end.

(** Modelled from the spec: opening a store by name creates it, empty, if
    absent. *)
Definition storage_open (name : string) (cs : CacheStorage) : CacheStorage :=
  match storage_find name cs with
  | Some _ => cs
  | None => cs ++ [(name, ∅)]
  end.

(** Modelled from the spec: the first stored response for [req], searching
    the stores in creation order. *)
Fixpoint storage_match (req : Request) (cs : CacheStorage) : option Response :=
  match cs with
  | [] => None
  | (_, c) :: cs' =>
      match c !! req with
      | Some r => Some r
      | None => storage_match req cs'
      end
  end.

(** What a lookup in the store called [name] gives for [req]. *)
Definition store_lookup (name : string) (req : Request) (w : World)
    : option Response :=
  c ← storage_find name (caches w); c !! req.

(** The two points the specification leaves to policy: which responses an
    install accepts, and whether a failed [addAll] stores nothing or keeps
    the assets it did fetch. *)
Record Policy := mkPolicy {
  acceptable : Response -> bool;
  atomic : bool
}.

(** The browsers' policy: only 2xx responses are stored, and a failed
    [addAll] stores nothing. *)
Definition browser_policy : Policy :=
  mkPolicy (fun r => (200 <=? status r) && (status r <=? 299)) true.

(** ** The service worker's constants *)

Definition cacheName : string := "pwa-cache-v1".

Definition assets : list string :=
  [ "/"; "/static/app.js"; "/static/manifest.json" ].

Section Platform.

(** The network: the response to a request made after [t] earlier calls,
    [None] for a network error. *)
Context (net : nat -> Request -> option Response).
Context (policy : Policy).

(** Modelled from the spec: the Network API, [fetch(request) -> response],
    which fails on a network error.  Every call is logged. *)
Definition fetch (req : Request) : Promise Response :=
  fun w =>
    let out := net (length (netlog w)) req in
    let w' := mkWorld (caches w) (netlog w ++ [(req, out)]) (worker w) in
    match out with
    | Some r => (Fulfilled r, w')
    | None => (Rejected (NetworkError req), w')
    end.

(** Modelled from the spec: the Store API, [open(name) -> Store]; the
    handle on a store is its name. *)
Definition caches_open (name : string) : Promise string :=
  fun w => (Fulfilled name, set_caches (storage_open name (caches w)) w).

(** Modelled from the spec: the lookup of a request's identity,
    [match(request) -> response|absent], as [caches.match] performs it:
    over every store of the cache storage.  It never rejects. *)
Definition caches_match (req : Request) : Promise (option Response) :=
  fun w => (Fulfilled (storage_match req (caches w)), w).

(** Modelled from the spec: the fetch [addAll] issues for one manifest
    path, and its verdict on the response (network error, or a response
    the policy refuses, make it fail). *)
Definition addAll_fetch (path : string) : Promise Response :=
  fetch (Request_of path) >>= fun r =>
    if acceptable policy r then resolve r
    else fun w => (Rejected (BadResponse (Request_of path) r), w).

(** A fetch is issued for every path; the verdicts are collected. *)
Fixpoint addAll_fetches (paths : list string) (w : World)
    : list (Request * Settled Response) * World :=
  match paths with
  | [] => ([], w)
  | p :: ps =>
      let '(o, w1) := addAll_fetch p w in
      let '(os, w2) := addAll_fetches ps w1 in
      ((Request_of p, o) :: os, w2)
  end.

Fixpoint first_rejection (os : list (Request * Settled Response))
    : option Rejection :=
  match os with
  | [] => None
  | (_, Rejected e) :: _ => Some e
  | (_, Fulfilled _) :: os' => first_rejection os'
  end.

Fixpoint accepted (os : list (Request * Settled Response))
    : list (Request * Response) :=
  match os with
  | [] => []
  | (k, Fulfilled r) :: os' => (k, r) :: accepted os'
  | (_, Rejected _) :: os' => accepted os'
  end.

Definition put_all (entries : list (Request * Response)) (c : Cache)
    : Cache :=
  foldl (fun c kv => <[kv.1 := kv.2]> c) c entries.

(** Modelled from the spec: the Store API,
    [Store.addAll(list<path>) -> unit, fails if any fetch fails]: every
    path is fetched, each successful response is stored keyed by its
    request, and the promise rejects when any fetch failed (then the
    store keeps the successful ones only if the policy is not atomic). *)
Definition cache_addAll (cache : string) (paths : list string)
    : Promise unit :=
  fun w =>
    let '(os, w1) := addAll_fetches paths w in
    let stored :=
      set_caches (storage_update cache (put_all (accepted os)) (caches w1)) w1 in
    match first_rejection os with
    | None => (Fulfilled tt, stored)
    | Some e => (Rejected e, if atomic policy then w1 else stored)
    end.

(** Modelled from the spec: the installation trigger.  The runtime waits
    on the promise handed to [event.waitUntil]; the worker becomes active
    only if it is fulfilled, and otherwise installation has to be retried
    in full. *)
Definition waitUntil (p : Promise unit) : Promise unit :=
  fun w =>
    let '(r, w') := p (set_worker Installing w) in
    (r, set_worker (match r with
                    | Fulfilled _ => Active
                    | Rejected _ => Uninstalled
                    end) w').

(** Modelled from the spec: the fetch interception trigger.  The
    requester receives the settlement of the promise handed to
    [event.respondWith]: the response, or the failure. *)
Definition respondWith (p : Promise Response) : Promise Response := p.

(** ** The service worker's handlers *)

(** [self.addEventListener('install', event => event.waitUntil(
      caches.open(cacheName).then(cache => cache.addAll(assets))))] *)
Definition on_install : Promise unit :=
  waitUntil (caches_open cacheName >>= fun cache => cache_addAll cache assets).

(** [self.addEventListener('fetch', event => event.respondWith(
      caches.match(event.request).then(res => res || fetch(event.request))))] *)
Definition on_fetch (request : Request) : Promise Response :=
  respondWith (caches_match request >>= fun res =>
    match res with
    | Some r => resolve r
    | None => fetch request
    end).

(** ** Histories of the worker *)

Inductive Event :=
  | InstallEvent
  | FetchEvent (request : Request).

Definition dispatch (w : World) (e : Event) : World :=
  match e with
  | InstallEvent => (on_install w).2
  | FetchEvent request => (on_fetch request w).2
  end.

Definition run (es : list Event) (w : World) : World :=
  foldl dispatch w es.

End Platform.

(** ** The exercise program [Main] *)

(** The program reads one line, splits it at commas, parses every part as
    an [int], scans for the largest and prints one line.  A run is what it
    printed and the exception that ended it, if any. *)

Inductive Exception :=
  | NumberFormatException
  | ArrayIndexOutOfBoundsException.

Record Run := mkRun { stdout : string; thrown : option Exception }.

Definition newline : string := String (ascii_of_nat 10) EmptyString.

(** The pieces between the separators, empty ones included. *)
Fixpoint split_on (sep : ascii) (s : string) : list string :=
  match s with
  | EmptyString => [EmptyString]
  | String c s' =>
      if Ascii.eqb c sep then EmptyString :: split_on sep s'
      else match split_on sep s' with
           | [] => [String c EmptyString]
           | p :: ps => String c p :: ps
           end
  end.

Definition is_empty (s : string) : bool :=
  match s with EmptyString => true | _ => false end.

Fixpoint drop_empty_prefix (l : list string) : list string :=
  match l with
  | p :: l' => if is_empty p then drop_empty_prefix l' else l
  | [] => []
  end.

(** [number.split(",")]: a string without a comma is returned whole;
    otherwise trailing empty pieces are removed. *)
Definition split (s : string) : list string :=
  match split_on "," s with
  | [p] => [p]
  | ps => rev (drop_empty_prefix (rev ps))
  end.

Definition Integer_MIN_VALUE : Z := - 2 ^ 31.
Definition Integer_MAX_VALUE : Z := 2 ^ 31 - 1.

(** [Character.digit(c, 10)] on the characters a line of bytes has. *)
Definition digit (c : ascii) : option Z :=
  let n := Z.of_N (N_of_ascii c) in
  if (48 <=? n) && (n <=? 57) then Some (n - 48) else None.

Fixpoint digits (acc : Z) (s : string) : option Z :=
  match s with
  | EmptyString => Some acc
  | String c s' => d ← digit c; digits (10 * acc + d) s'
  end.

(** [Integer.parseInt]: an optional sign, then at least one decimal digit,
    and the value has to fit an [int]; [None] is a
    [NumberFormatException]. *)
Definition parseInt (s : string) : option Z :=
  let magnitude (t : string) := if is_empty t then None else digits 0 t in
  v ← match s with
      | String "-" t => Z.opp <$> magnitude t
      | String "+" t => magnitude t
      | _ => magnitude s
      end;
  if (Integer_MIN_VALUE <=? v) && (v <=? Integer_MAX_VALUE) then Some v
  else None.

(** [%d] *)
Definition format_d (n : Z) : string := NilZero.string_of_int (Z.to_int n).

Definition greet : string :=
  "Hello, welcome to my program in Java!" +:+ newline.

Definition prompt : string :=
  "Enter three numbers seperated by commas (e.g. 5,2,23): ".

(** [int compare = 0; for (int num : numbers) if (num > compare) compare = num;] *)
Definition largest (numbers : list Z) : Z :=
  foldl (fun compare num => if num >? compare then num else compare) 0 numbers.

(** [main], on the line [scanner.nextLine()] returns. *)
Definition main (line : string) : Run :=
  let printed := greet +:+ prompt in
  match mapM parseInt (split line) with
  | None => mkRun printed (Some NumberFormatException)
  | Some numbers =>
      let compare := largest numbers in
      match numbers with
      | n0 :: n1 :: n2 :: _ =>
          mkRun (printed +:+ "The largest number out of " +:+ format_d n0
                   +:+ ", " +:+ format_d n1 +:+ " and " +:+ format_d n2
                   +:+ " is: " +:+ format_d compare +:+ newline)
                None
      | _ => mkRun printed (Some ArrayIndexOutOfBoundsException)
      end
  end.

(** ** Auxiliary definitions for the statements *)

Section Outcomes.

Context (net : nat -> Request -> option Response).
Context (policy : Policy).

(** The calls [addAll] makes for [paths] when [t] calls came before. *)
Fixpoint calls (t : nat) (paths : list string) : list NetCall :=
  match paths with
  | [] => []
  | p :: ps => (Request_of p, net t (Request_of p)) :: calls (S t) ps
  end.

(** A fetch made for an install failed: network error, or a response the
    policy does not accept. *)
Definition fetch_failed (out : option Response) : bool :=
  match out with
  | None => true
  | Some r => negb (acceptable policy r)
  end.

Definition verdict (c : NetCall) : Request * Settled Response :=
  (c.1, match c.2 with
        | None => Rejected (NetworkError c.1)
        | Some r => if acceptable policy r then Fulfilled r
                    else Rejected (BadResponse c.1 r)
        end).

End Outcomes.

(** The values of Java's [int]. *)
Definition is_int (n : Z) : Prop :=
  Integer_MIN_VALUE <= n <= Integer_MAX_VALUE.

Fixpoint comma_free (s : string) : bool :=
  match s with
  | EmptyString => true
  | String c s' => negb (Ascii.eqb c ",") && comma_free s'
  end.

(** The line a user types for the numbers [a], [b] and [c]. *)
Definition input_line (a b c : Z) : string :=
  format_d a +:+ "," +:+ format_d b +:+ "," +:+ format_d c.

(** The network gives the manifest's assets the same answer at all times. *)
Definition stable_on_assets (net : nat -> Request -> option Response) : Prop :=
  forall t t' p, p ∈ assets -> net t (Request_of p) = net t' (Request_of p).

(** Every store is the named one, and every key in it is a manifest
    path. *)
Definition within_manifest (cs : CacheStorage) : Prop :=
  forall n c, (n, c) ∈ cs ->
    n = cacheName /\
    forall req, is_Some (c !! req) -> exists p, p ∈ assets /\ req = Request_of p.

(** ** Sample networks and worlds *)

Definition page (b : string) : Response := mkResponse 200 [] b.

(** Every GET is answered with a page saying what was asked for. *)
Definition online : nat -> Request -> option Response :=
  fun _ req => Some (page ("content of " +:+ url req)).

(** As [online], but the application script cannot be fetched. *)
Definition script_unreachable : nat -> Request -> option Response :=
  fun t req => if decide (url req = "/static/app.js") then None else online t req.

Definition offline : nat -> Request -> option Response := fun _ _ => None.

(** A cache storage in which other code of the origin created a store
    before the worker was installed. *)
Definition shared_origin : World :=
  mkWorld [("thumbnails", {[ Request_of "/cover.png" := page "a cover" ]})] []
          Uninstalled.

(** The worker installed, online, from nothing. *)
Definition installed_world : World :=
  (on_install online browser_policy fresh_world).2.

(** The worker installed, online, next to the other code's store. *)
Definition shared_installed : World :=
  (on_install online browser_policy shared_origin).2.



(** After its first three answers the network serves a new release. *)
Definition redeployed : nat -> Request -> option Response :=
  fun t req =>
    if (t <=? 2)%nat then online t req
    else Some (page ("release 2 of " +:+ url req)).

(** ** Input lines for the exercise program *)

Fixpoint join_commas (ss : list string) : string :=
  match ss with
  | [] => ""
  | [s] => s
  | s :: rest => s +:+ "," +:+ join_commas rest
  end.

(** The line a user types for any number of numbers. *)
Definition numbers_line (ns : list Z) : string :=
  join_commas (format_d <$> ns).

(** Three numbers typed with a space after each comma. *)
Definition spaced_line (a b c : Z) : string :=
  format_d a +:+ ", " +:+ format_d b +:+ ", " +:+ format_d c.

#[global] Instance is_int_dec (n : Z) : Decision (is_int n).
Proof. unfold is_int. apply _. Defined.

(** ** The page script [app.js]

    The script registers the service worker and, once the document is
    loaded, fetches [/files] and appends one [li] per file to the element
    [file_list].  Its promise chains run over the document: the children
    of [file_list] (if the page has that element) and the console. *)

(** A value [res.json()] can give.  A number carries the text JavaScript's
    [ToString] gives it. *)
#[local] Unset Elimination Schemes.
Inductive JSON :=
  | JNull
  | JBool (b : bool)
  | JNumber (shown : string)
  | JString (s : string)
  | JArray (items : list JSON)
  | JObject (members : list (string * JSON)).
#[local] Set Elimination Schemes.

(** JavaScript's [ToString] on these values, [None] where it throws a
    [TypeError].  An array is its elements joined by commas, [null]
    elements as nothing.  An object parsed from JSON has no callable member:
    with a member named [toString] of its own it cannot be converted,
    without one it is converted by [Object.prototype.toString]. *)
Fixpoint ToString (v : JSON) : option string :=
  match v with
  | JNull => Some "null"
  | JBool b => Some (if b then "true" else "false")
  | JNumber shown => Some shown
  | JString s => Some s
  | JArray items =>
      join_commas <$>
        (fix each (l : list JSON) : option (list string) :=
           match l with
           | [] => Some []
           | item :: l' =>
               match (match item with
                      | JNull => Some ""
                      | _ => ToString item
                      end) with
               | Some t =>
                   match each l' with
                   | Some ts => Some (t :: ts)
                   | None => None
                   end
               | None => None
               end
           end) items
  | JObject members =>
      if decide ("toString" ∈ members.*1) then None
      else Some "[object Object]"
  end.

(** What [li.textContent = file] stores: nothing for [null], the
    [ToString] of anything else. *)
Definition text_for (file : JSON) : option string :=
  match file with
  | JNull => Some ""
  | _ => ToString file
  end.

Inductive JsError :=
  | FetchError (e : Rejection)
  | SyntaxError
  | TypeError (what : string)
  | RegistrationError (why : string).

Inductive ConsoleEntry :=
  | console_log (message : string)
  | console_error (message : string) (err : JsError).

(** An [li] element, as far as the script sets it up. *)
Record Li := mkLi { textContent : string }.

Record Document := mkDocument {
  file_list : option (list Li);
  console : list ConsoleEntry
}.

(** How a promise chain of the page ends. *)
Inductive Completion (A : Type) :=
  | Done (a : A)
  | Uncaught (e : JsError).
Arguments Done {A} a.
Arguments Uncaught {A} e.

Definition Task (A : Type) : Type := Document -> Completion A * Document.

Definition settled {A} (c : Completion A) : Task A := fun d => (c, d).

(** [p.then(f)] *)
Definition and_then {A B} (p : Task A) (f : A -> Task B) : Task B :=
  fun d =>
    match p d with
    | (Done a, d') => f a d'
    | (Uncaught e, d') => (Uncaught e, d')
    end.

(** [p.catch(h)] *)
Definition or_catch {A} (p : Task A) (h : JsError -> Task A) : Task A :=
  fun d =>
    match p d with
    | (Done a, d') => (Done a, d')
    | (Uncaught e, d') => h e d'
    end.

Definition log (entry : ConsoleEntry) : Task unit :=
  fun d => (Done tt, mkDocument (file_list d) (console d ++ [entry])).

(** [document.createElement('li')] followed by [li.textContent = file];
    a [file] that cannot be converted to a string throws. *)
Definition li_with_text (file : JSON) : Task Li :=
  settled (match text_for file with
           | Some text => Done (mkLi text)
           | None => Uncaught (TypeError "file cannot be converted to a string")
           end).

(** [list.appendChild(li)], where [list] is what
    [document.getElementById('file_list')] gave. *)
Definition appendChild (li : Li) : Task unit :=
  fun d =>
    match file_list d with
    | None => (Uncaught (TypeError "list is null"), d)
    | Some children =>
        (Done tt, mkDocument (Some (children ++ [li])) (console d))
    end.

(** [items.forEach(f)]: an exception in [f] ends the loop. *)
Fixpoint forEach (items : list JSON) (f : JSON -> Task unit) : Task unit :=
  match items with
  | [] => settled (Done tt)
  | item :: rest => and_then (f item) (fun _ => forEach rest f)
  end.

Definition of_settled {A} (s : Settled A) : Completion A :=
  match s with
  | Fulfilled a => Done a
  | Rejected e => Uncaught (FetchError e)
  end.

Section PageScript.

(** The page's surroundings: whether the browser has service workers, how
    [navigator.serviceWorker.register] settles, how the page's [fetch]
    settles, and the parser behind [res.json()]. *)
Context (serviceWorker_in_navigator : bool).
Context (register : string -> Completion unit).
Context (window_fetch : string -> Settled Response).
Context (JSON_parse : string -> option JSON).

(** [if ('serviceWorker' in navigator) {
      navigator.serviceWorker.register('service-worker.js')
        .then(() => console.log('Service Worker Registered'))
        .catch(err => console.error('Service Worker registration failed:', err)) }] *)
Definition register_service_worker : Task unit :=
  if serviceWorker_in_navigator then
    or_catch
      (and_then (settled (register "service-worker.js"))
                (fun _ => log (console_log "Service Worker Registered")))
      (fun err => log (console_error "Service Worker registration failed:" err))
  else settled (Done tt).

(** [res.json()] *)
Definition res_json (res : Response) : Task JSON :=
  settled (match JSON_parse (body res) with
           | Some v => Done v
           | None => Uncaught SyntaxError
           end).

(** [files => { files.forEach(file => { const li = ...; li.textContent = file;
      list.appendChild(li); }); }] *)
Definition list_files (files : JSON) : Task unit :=
  match files with
  | JArray items =>
      forEach items (fun file => and_then (li_with_text file) appendChild)
  | _ => settled (Uncaught (TypeError "files.forEach is not a function"))
  end.

(** [document.addEventListener('DOMContentLoaded', () => {
      const list = document.getElementById('file_list');
      fetch('/files').then(res => res.json()).then(files => { ... }); })] *)
Definition on_DOMContentLoaded : Task unit :=
  and_then (and_then (settled (of_settled (window_fetch "/files"))) res_json)
           list_files.

End PageScript.

(** The page's [fetch], when the worker in world [w] controls the page: the
    request goes through the worker's fetch handler. *)
Definition fetch_through_worker (net : nat -> Request -> option Response)
    (w : World) (path : string) : Settled Response :=
  (on_fetch net (Request_of path) w).1.

(** The page's [fetch] with no worker in between. *)
Definition fetch_from_network (net : nat -> Request -> option Response)
    (w : World) (path : string) : Settled Response :=
  (fetch net (Request_of path) w).1.

(** *** A sample listing *)

Definition double_quote : string := String (ascii_of_nat 34) EmptyString.

Definition listing_body : string :=
  "[" +:+ double_quote +:+ "batman.cbz" +:+ double_quote +:+ ","
      +:+ double_quote +:+ "saga.cbz" +:+ double_quote +:+ "]".

(** A listing whose second entry is an object with a member [toString]. *)
Definition broken_listing_body : string :=
  "[" +:+ double_quote +:+ "ok" +:+ double_quote +:+ ",{"
      +:+ double_quote +:+ "toString" +:+ double_quote +:+ ":1},"
      +:+ double_quote +:+ "after" +:+ double_quote +:+ "]".

(** A JSON parser that knows five documents. *)
Definition listing_parse (text : string) : option JSON :=
  if decide (text = listing_body)
  then Some (JArray [JString "batman.cbz"; JString "saga.cbz"])
  else if decide (text = broken_listing_body)
  then Some (JArray [JString "ok"; JObject [("toString", JNumber "1")];
                     JString "after"])
  else if decide (text = "[]") then Some (JArray [])
  else if decide (text = "[null,3]") then Some (JArray [JNull; JNumber "3"])
  else if decide (text = "null") then Some JNull
  else None.

(** A server whose listing holds no names. *)
Definition odd_server : nat -> Request -> option Response :=
  fun _ _ => Some (mkResponse 200 [] "[null,3]").

(** A server whose listing has an entry that is no name at all. *)
Definition broken_server : nat -> Request -> option Response :=
  fun _ _ => Some (mkResponse 200 [] broken_listing_body).

(** ** Further auxiliary definitions *)


(** A URL without its fragment, the form in which the cache compares
    URLs. *)
Fixpoint without_fragment (u : string) : string :=
  match u with
  | EmptyString => EmptyString
  | String c u' =>
      if Ascii.eqb c "#" then EmptyString else String c (without_fragment u')
  end.

(** The server answers [/files] with the listing, and anything else with
    a page that is not JSON. *)
Definition comic_server : nat -> Request -> option Response :=
  fun t req =>
    if decide (url req = "/files") then Some (mkResponse 200 [] listing_body)
    else online t req.

Definition empty_list_page : Document := mkDocument (Some []) [].

Definition page_without_list : Document := mkDocument None [].

(** The network can be reached while the worker installs, and not after. *)
Definition online_then_offline : nat -> Request -> option Response :=
  fun t req => if (t <? 3)%nat then online t req else None.

(** The worker installed while the network could be reached. *)
Definition installed_then_offline : World :=
  (on_install online_then_offline browser_policy fresh_world).2.

(** * Properties *)

(** Closed goals over the samples are settled by running the model. *)
Ltac by_evaluation := vm_compute; reflexivity.
Ltac by_decision := apply (bool_decide_unpack _); by_evaluation.

(** ** Cache storage *)

Lemma storage_match_None (req : Request) (cs : CacheStorage) :
  storage_match req cs = None <->
  forall n c, (n, c) ∈ cs -> c !! req = None.
Proof.
  induction cs as [|[n0 c0] cs IH]; simpl.
  - split; [intros _ n c Hin; inversion Hin | done].
  - destruct (c0 !! req) as [r|] eqn:E.
    + split; [done | intros H].
      specialize (H n0 c0 (list_elem_of_here _ _)). congruence.
    + rewrite IH. split.
      * intros H n c Hin. apply elem_of_cons in Hin as [Heq | Hin].
        -- by inversion Heq; subst.
        -- by eapply H.
      * intros H n c Hin. eapply H. by right.
Qed.

Lemma storage_match_Some (req : Request) (cs : CacheStorage) (r : Response) :
  storage_match req cs = Some r ->
  exists n c, (n, c) ∈ cs /\ c !! req = Some r.
Proof.
  induction cs as [|[n0 c0] cs IH]; simpl; [done|].
  destruct (c0 !! req) as [r0|] eqn:E.
  - intros [= <-]. exists n0, c0. split; [left | done].
  - intros H. destruct (IH H) as (n & c & Hin & Hc).
    exists n, c. split; [by right | done].
Qed.

Lemma storage_match_held (req : Request) (cs : CacheStorage) n c r :
  (n, c) ∈ cs -> c !! req = Some r -> is_Some (storage_match req cs).
Proof.
  intros Hin Hc. destruct (storage_match req cs) eqn:E; [by eexists|].
  rewrite storage_match_None in E. specialize (E n c Hin). congruence.
Qed.

(** In a storage whose stores all go by one name, the search over all
    stores is the lookup in the store of that name. *)
Lemma storage_match_single (name : string) (req : Request)
    (cs : CacheStorage) c r :
  (forall n c', (n, c') ∈ cs -> n = name) ->
  storage_find name cs = Some c -> c !! req = Some r ->
  storage_match req cs = Some r.
Proof.
  intros Hall Hfind Hc. destruct cs as [|[n0 c0] cs]; simpl in *; [done|].
  rewrite (Hall n0 c0 (list_elem_of_here _ _)) in Hfind.
  rewrite decide_True in Hfind by done.
  injection Hfind as ->. by rewrite Hc.
Qed.

Lemma storage_find_update (name : string) (f : Cache -> Cache)
    (cs : CacheStorage) :
  storage_find name (storage_update name f cs) = f <$> storage_find name cs.
Proof.
  induction cs as [|[n c] cs IH]; simpl; [done|].
  destruct (decide (n = name)) as [->|Hne]; simpl.
  - by rewrite decide_True.
  - by rewrite decide_False.
Qed.

Lemma storage_find_open (name : string) (cs : CacheStorage) :
  is_Some (storage_find name (storage_open name cs)).
Proof.
  unfold storage_open. destruct (storage_find name cs) as [c|] eqn:E.
  - rewrite E. by eexists.
  - exists ∅. induction cs as [|[n c] cs IH]; simpl in *.
    + by rewrite decide_True.
    + destruct (decide (n = name)); [done | by apply IH].
Qed.

Lemma storage_open_found (name : string) (cs : CacheStorage) :
  is_Some (storage_find name cs) -> storage_open name cs = cs.
Proof. intros [c Hc]. unfold storage_open. by rewrite Hc. Qed.

Lemma storage_update_update (name : string) (f g : Cache -> Cache)
    (cs : CacheStorage) :
  storage_update name f (storage_update name g cs)
  = storage_update name (fun c => f (g c)) cs.
Proof.
  induction cs as [|[n c] cs IH]; simpl; [done|].
  destruct (decide (n = name)) as [->|Hne]; simpl.
  - by rewrite decide_True.
  - rewrite decide_False by done. by rewrite IH.
Qed.

Lemma storage_update_ext (name : string) (f g : Cache -> Cache)
    (cs : CacheStorage) :
  (forall c, f c = g c) -> storage_update name f cs = storage_update name g cs.
Proof.
  intros Hfg. induction cs as [|[n c] cs IH]; simpl; [done|].
  destruct (decide (n = name)); by rewrite ?Hfg, ?IH.
Qed.

Lemma elem_of_storage_update (name : string) (f : Cache -> Cache)
    (cs : CacheStorage) n c :
  (n, c) ∈ storage_update name f cs ->
  (n, c) ∈ cs \/ exists c0, (n, c0) ∈ cs /\ n = name /\ c = f c0.
Proof.
  induction cs as [|[n0 c0] cs IH]; simpl; [by left|].
  destruct (decide (n0 = name)) as [->|Hne]; intros Hin.
  - apply elem_of_cons in Hin as [[= -> ->] | Hin].
    + right. exists c0. split; [left | done].
    + left. by right.
  - apply elem_of_cons in Hin as [[= -> ->] | Hin].
    + left. left.
    + destruct (IH Hin) as [H | (c1 & H & Hn & Hc)].
      * left. by right.
      * right. exists c1. split; [by right | done].
Qed.

Lemma elem_of_storage_open (name : string) (cs : CacheStorage) n c :
  (n, c) ∈ storage_open name cs -> (n, c) ∈ cs \/ (n = name /\ c = ∅).
Proof.
  unfold storage_open. destruct (storage_find name cs); [by left|].
  intros Hin. apply elem_of_app in Hin as [Hin | Hin]; [by left|].
  apply list_elem_of_singleton in Hin as [= -> ->]. by right.
Qed.

(** ** Stored entries *)

Lemma put_all_union (es : list (Request * Response)) (c : Cache) :
  put_all es c = list_to_map (reverse es) ∪ c.
Proof.
  unfold put_all. revert c. induction es as [|[k v] es IH]; intros c; simpl.
  - by rewrite (left_id_L ∅ (∪)).
  - rewrite IH, reverse_cons, list_to_map_app. simpl.
    rewrite insert_empty, <- (assoc_L (∪)).
    by rewrite <- insert_union_singleton_l.
Qed.

Lemma put_all_twice (es : list (Request * Response)) (c : Cache) :
  put_all es (put_all es c) = put_all es c.
Proof.
  rewrite !put_all_union, (assoc_L (∪)). f_equal. apply (idemp_L (∪)).
Qed.

Lemma put_all_lookup (es : list (Request * Response)) (c : Cache) k v :
  NoDup es.*1 -> (k, v) ∈ es -> put_all es c !! k = Some v.
Proof.
  intros Hnd Hin. rewrite put_all_union.
  apply lookup_union_Some_l, elem_of_list_to_map.
  - by rewrite fmap_reverse, reverse_Permutation.
  - by apply elem_of_reverse.
Qed.

Lemma put_all_keys (es : list (Request * Response)) (c : Cache) k :
  is_Some (put_all es c !! k) -> k ∈ es.*1 \/ is_Some (c !! k).
Proof.
  rewrite put_all_union. intros [v Hv].
  apply lookup_union_Some_raw in Hv as [Hv | [_ Hv]]; [left | right; by eexists].
  apply elem_of_list_to_map_2 in Hv. rewrite elem_of_reverse in Hv.
  apply list_elem_of_fmap. by exists (k, v).
Qed.

(** ** The handlers *)

Section Handlers.

Context (net : nat -> Request -> option Response).
Context (policy : Policy).

Lemma fetched_during_unchanged {A} (p : Promise A) (w : World) :
  (p w).2 = w -> fetched_during p w = [].
Proof. intros H. unfold fetched_during. rewrite H. apply drop_all. Qed.

Lemma on_fetch_hit (req : Request) (w : World) (r : Response) :
  storage_match req (caches w) = Some r ->
  on_fetch net req w = (Fulfilled r, w).
Proof.
  intros H. unfold on_fetch, respondWith, then_, caches_match.
  by rewrite H.
Qed.

Lemma on_fetch_miss (req : Request) (w : World) :
  storage_match req (caches w) = None ->
  on_fetch net req w = fetch net req w.
Proof.
  intros H. unfold on_fetch, respondWith, then_, caches_match.
  by rewrite H.
Qed.

Lemma on_fetch_caches (req : Request) (w : World) :
  caches (on_fetch net req w).2 = caches w.
Proof.
  destruct (storage_match req (caches w)) as [r|] eqn:E.
  - by rewrite (on_fetch_hit _ _ _ E).
  - rewrite (on_fetch_miss _ _ E). unfold fetch.
    by destruct (net (length (netlog w)) req).
Qed.

Lemma addAll_fetch_spec (p : string) (w : World) :
  addAll_fetch net policy p w
  = ((verdict policy (Request_of p, net (length (netlog w)) (Request_of p))).2,
     mkWorld (caches w)
             (netlog w ++ [(Request_of p, net (length (netlog w)) (Request_of p))])
             (worker w)).
Proof.
  unfold addAll_fetch, then_, fetch, verdict, resolve. simpl.
  destruct (net (length (netlog w)) (Request_of p)) as [r|]; [|done].
  by destruct (acceptable policy r).
Qed.

Lemma addAll_fetches_spec (paths : list string) (w : World) :
  addAll_fetches net policy paths w
  = (verdict policy <$> calls net (length (netlog w)) paths,
     mkWorld (caches w)
             (netlog w ++ calls net (length (netlog w)) paths)
             (worker w)).
Proof.
  revert w. induction paths as [|p ps IH]; intros w; simpl.
  - rewrite app_nil_r. by destruct w.
  - rewrite addAll_fetch_spec, IH. simpl.
    rewrite length_app, Nat.add_1_r, <- app_assoc. done.
Qed.

(** The install handler, with its promise chain run. *)
Lemma on_install_run (w : World) :
  let cs := storage_open cacheName (caches w) in
  let made := calls net (length (netlog w)) assets in
  let os := verdict policy <$> made in
  let stored := storage_update cacheName (put_all (accepted os)) cs in
  on_install net policy w
  = match first_rejection os with
    | None => (Fulfilled tt, mkWorld stored (netlog w ++ made) Active)
    | Some e =>
        (Rejected e,
         mkWorld (if atomic policy then cs else stored) (netlog w ++ made)
                 Uninstalled)
    end.
Proof.
  intros cs made os stored.
  unfold on_install, waitUntil, then_, caches_open, cache_addAll.
  rewrite addAll_fetches_spec.
  cbn [set_worker set_caches caches netlog worker].
  fold cs made os stored.
  destruct (first_rejection os); [|done].
  by destruct (atomic policy).
Qed.

Lemma on_install_fetched (w : World) :
  fetched_during (on_install net policy) w
  = calls net (length (netlog w)) assets.
Proof.
  unfold fetched_during. rewrite on_install_run.
  destruct (first_rejection _); apply drop_app_length.
Qed.

Lemma calls_keys (t : nat) (paths : list string) :
  (calls net t paths).*1 = Request_of <$> paths.
Proof.
  revert t. induction paths as [|p ps IH]; intros t; simpl; [done|].
  by rewrite IH.
Qed.

Lemma first_rejection_None (cs : list NetCall) :
  first_rejection (verdict policy <$> cs) = None <->
  forall c, c ∈ cs -> fetch_failed policy c.2 = false.
Proof.
  induction cs as [|[k out] cs IH]; simpl.
  - split; [intros _ c Hc; inversion Hc | done].
  - destruct out as [r|]; simpl.
    + destruct (acceptable policy r) eqn:E; simpl.
      * rewrite IH. split.
        -- intros H c Hc. apply elem_of_cons in Hc as [-> | Hc]; simpl.
           ++ by rewrite E.
           ++ by apply H.
        -- intros H c Hc. apply H. by right.
      * split; [done | intros H].
        specialize (H _ (list_elem_of_here _ _)). simpl in H.
        rewrite E in H. done.
    + split; [done | intros H].
      by specialize (H _ (list_elem_of_here _ _)).
Qed.

Lemma elem_of_accepted (cs : list NetCall) k r :
  (k, r) ∈ accepted (verdict policy <$> cs) <->
  (k, Some r) ∈ cs /\ acceptable policy r = true.
Proof.
  induction cs as [|[k0 out] cs IH]; simpl.
  - split; [intros H; inversion H | intros [H _]; inversion H].
  - destruct out as [r0|]; simpl.
    + destruct (acceptable policy r0) eqn:E; simpl.
      * rewrite !elem_of_cons, IH. split.
        -- intros [[= -> ->] | [H1 H2]]; [by split; [left|] | by split; [right|]].
        -- intros [[[= -> ->] | H1] H2]; [by left | by right].
      * rewrite IH, elem_of_cons. split.
        -- intros [H1 H2]. by split; [right|].
        -- intros [[[= -> ->] | H1] H2]; [congruence | done].
    + rewrite IH, elem_of_cons. split.
      * intros [H1 H2]. by split; [right|].
      * intros [[[=] | H1] H2]. done.
Qed.

Lemma accepted_keys_sublist (cs : list NetCall) :
  (accepted (verdict policy <$> cs)).*1 `sublist_of` cs.*1.
Proof.
  induction cs as [|[k out] cs IH]; simpl; [done|].
  destruct out as [r|]; simpl.
  - destruct (acceptable policy r); simpl.
    + by apply sublist_skip.
    + by apply sublist_cons.
  - by apply sublist_cons.
Qed.

End Handlers.

(** ** The manifest *)

#[global] Instance Request_of_inj : Inj (=) (=) Request_of.
Proof. intros p q [= H]. exact H. Qed.

Lemma assets_NoDup : NoDup assets.
Proof. apply (bool_decide_unpack _). vm_compute. reflexivity. Qed.

Lemma NoDup_fst_unique {A B} (l : list (A * B)) k v1 v2 :
  NoDup l.*1 -> (k, v1) ∈ l -> (k, v2) ∈ l -> v1 = v2.
Proof.
  induction l as [|[k0 v0] l IH]; simpl; intros Hnd H1 H2; [inversion H1|].
  apply NoDup_cons in Hnd as [Hk0 Hnd].
  apply elem_of_cons in H1 as [E1 | H1];
    apply elem_of_cons in H2 as [E2 | H2]; simplify_eq; try done.
  - exfalso. apply Hk0, list_elem_of_fmap. by eexists (_, _).
  - exfalso. apply Hk0, list_elem_of_fmap. by eexists (_, _).
  - by apply IH.
Qed.

Section Manifest.

Context (net : nat -> Request -> option Response).
Context (policy : Policy).

Lemma calls_NoDup (t : nat) : NoDup (calls net t assets).*1.
Proof.
  rewrite calls_keys. apply (NoDup_fmap_2 _), assets_NoDup.
Qed.

Lemma calls_elem (t : nat) (paths : list string) (p : string) :
  p ∈ paths -> exists out, (Request_of p, out) ∈ calls net t paths.
Proof.
  revert t. induction paths as [|q ps IH]; intros t Hp; [inversion Hp|].
  apply elem_of_cons in Hp as [-> | Hp]; simpl.
  - eexists. left.
  - destruct (IH (S t) Hp) as [out Hout]. exists out. by right.
Qed.

Lemma calls_stable (t t' : nat) (paths : list string) :
  (forall p, p ∈ paths ->
     forall u u', net u (Request_of p) = net u' (Request_of p)) ->
  calls net t paths = calls net t' paths.
Proof.
  revert t t'. induction paths as [|q ps IH]; intros t t' H; simpl; [done|].
  rewrite (H q (list_elem_of_here _ _) t t'). f_equal.
  apply IH. intros p Hp. apply H. by right.
Qed.

Lemma accepted_keys (cs : list NetCall) k :
  k ∈ (accepted (verdict policy <$> cs)).*1 -> k ∈ cs.*1.
Proof. intros Hk. eapply elem_of_sublist, accepted_keys_sublist. done. Qed.

(** Installing keeps every store within the manifest. *)
Lemma within_manifest_install (w : World) :
  within_manifest (caches w) ->
  within_manifest (caches (on_install net policy w).2).
Proof.
  intros Inv.
  assert (Hopen : within_manifest (storage_open cacheName (caches w))).
  { intros n c Hin.
    apply elem_of_storage_open in Hin as [Hin | [-> ->]]; [by apply Inv|].
    split; [done|]. intros req Hc.
    rewrite lookup_empty in Hc. by destruct Hc. }
  assert (Hstored : within_manifest
    (storage_update cacheName
       (put_all (accepted (verdict policy
                             <$> calls net (length (netlog w)) assets)))
       (storage_open cacheName (caches w)))).
  { intros n c Hin.
    apply elem_of_storage_update in Hin as [Hin | (c0 & Hin & -> & ->)];
      [by apply Hopen|].
    split; [done|]. intros req Hc.
    apply put_all_keys in Hc as [Hk | Hc].
    - apply accepted_keys in Hk. rewrite calls_keys in Hk.
      apply list_elem_of_fmap in Hk as (p & -> & Hp). by exists p.
    - by eapply Hopen. }
  rewrite on_install_run.
  destruct (first_rejection _); simpl; [|done].
  by destruct (atomic policy).
Qed.

Lemma within_manifest_run (history : list Event) (w : World) :
  within_manifest (caches w) ->
  within_manifest (caches (run net policy history w)).
Proof.
  revert w. unfold run.
  induction history as [|e es IH]; intros w Inv; simpl; [done|].
  apply IH. destruct e as [|req]; simpl.
  - by apply within_manifest_install.
  - by rewrite on_fetch_caches.
Qed.

Lemma within_manifest_fresh : within_manifest (caches fresh_world).
Proof. intros n c Hin. inversion Hin. Qed.

(** Installing a second time, with the network answering alike, leaves
    the cache storage as the first install left it. *)
Lemma install_twice (w : World) :
  stable_on_assets net ->
  caches (on_install net policy (on_install net policy w).2).2
  = caches (on_install net policy w).2.
Proof.
  intros Hst.
  assert (Hcalls : forall t t', calls net t assets = calls net t' assets).
  { intros t t'. apply calls_stable. intros p Hp u u'. by apply Hst. }
  assert (Hre : forall f cs,
    storage_update cacheName f
      (storage_open cacheName
         (storage_update cacheName f (storage_open cacheName cs)))
    = storage_update cacheName (fun c => f (f c)) (storage_open cacheName cs)).
  { intros f cs. rewrite (storage_open_found cacheName (storage_update _ _ _)).
    - apply storage_update_update.
    - rewrite storage_find_update.
      destruct (storage_find_open cacheName cs) as [c ->]. by eexists. }
  rewrite !on_install_run.
  set (os := verdict policy <$> calls net (length (netlog w)) assets).
  destruct (first_rejection os) as [e|] eqn:E;
    cbn [snd caches netlog]; rewrite (Hcalls _ (length (netlog w)));
    fold os; rewrite E; cbn [snd caches].
  - destruct (atomic policy).
    + apply storage_open_found, storage_find_open.
    + rewrite Hre. apply storage_update_ext. intros c. apply put_all_twice.
  - rewrite Hre. apply storage_update_ext. intros c. apply put_all_twice.
Qed.

End Manifest.

(** ** The stores created earlier *)

Lemma storage_find_holds (name : string) (cs : CacheStorage) (c : Cache) :
  storage_find name cs = Some c -> (name, c) ∈ cs.
Proof.
  induction cs as [|[n c0] cs IH]; simpl; [done|].
  destruct (decide (n = name)) as [->|Hn].
  - intros [= ->]. left.
  - intros H. right. by apply IH.
Qed.


(** ** The claims about the offline asset cache *)

Section Claims.

Context (net : nat -> Request -> option Response).
Context (policy : Policy).


(** C2: for every request absent from every cache store, Handle Fetch
    performs exactly one network fetch, for that request, and returns
    that fetch's result unchanged: its response, or its failure. *)
Theorem uncached_request_fetched_once (w : World) (req : Request) :
  (forall n c, (n, c) ∈ caches w -> c !! req = None) ->
  (on_fetch net req w).1
    = match net (length (netlog w)) req with
      | Some r => Fulfilled r
      | None => Rejected (NetworkError req)
      end
  /\ fetched_during (on_fetch net req) w
     = [(req, net (length (netlog w)) req)].
Proof.
  intros Habs. apply storage_match_None in Habs.
  unfold fetched_during. rewrite (on_fetch_miss _ _ _ Habs). unfold fetch.
  destruct (net (length (netlog w)) req); simpl;
    (split; [done | apply drop_app_length]).
Qed.

(** C3: if the fetch of any single asset of the manifest fails during
    Install, the install as a whole reports failure (the promise handed
    to the runtime is rejected) and the worker does not become active. *)
Theorem install_fails_when_an_asset_fetch_fails
    (w : World) (p : string) (out : option Response) :
  p ∈ assets ->
  (Request_of p, out) ∈ fetched_during (on_install net policy) w ->
  fetch_failed policy out = true ->
  exists e, (on_install net policy w).1 = Rejected e
            /\ worker (on_install net policy w).2 <> Active.
Proof.
  intros _ Hcall Hfail. rewrite on_install_fetched in Hcall.
  rewrite on_install_run.
  destruct (first_rejection _) as [e|] eqn:E.
  - exists e. by split.
  - rewrite first_rejection_None in E. specialize (E _ Hcall).
    simpl in E. congruence.
Qed.

(** C4: after a successful Install, for every asset path of the manifest,
    a lookup in the Named Cache Store by that asset's exact request
    identity returns the response that was fetched for it during that
    install. *)
Theorem installed_assets_are_stored (w w1 : World) (p : string) :
  on_install net policy w = (Fulfilled tt, w1) ->
  p ∈ assets ->
  exists resp,
    store_lookup cacheName (Request_of p) w1 = Some resp
    /\ (Request_of p, Some resp) ∈ fetched_during (on_install net policy) w
    /\ forall out,
         (Request_of p, out) ∈ fetched_during (on_install net policy) w ->
         out = Some resp.
Proof.
  intros Hinst Hp. rewrite on_install_fetched.
  rewrite on_install_run in Hinst.
  pose proof (calls_NoDup net (length (netlog w))) as Hnd.
  destruct (calls_elem net (length (netlog w)) assets p Hp) as [out Hout].
  remember (calls net (length (netlog w)) assets) as made eqn:Hmade.
  clear Hmade.
  destruct (first_rejection (verdict policy <$> made)) eqn:E; [done|].
  injection Hinst as <-.
  rewrite first_rejection_None in E.
  pose proof (E _ Hout) as Hok. simpl in Hok.
  destruct out as [resp|]; [|done]. apply negb_false_iff in Hok.
  exists resp. split; [|split; [done|]].
  - unfold store_lookup. cbn [caches]. rewrite storage_find_update.
    destruct (storage_find_open cacheName (caches w)) as [c0 ->]. simpl.
    apply put_all_lookup.
    + apply (sublist_NoDup _ _ Hnd), accepted_keys_sublist.
    + by apply elem_of_accepted.
  - intros out' Hout'. by apply (NoDup_fst_unique made (Request_of p)).
Qed.

(** C5: for every request with no cached entry whose forwarded network
    fetch fails, Handle Fetch settles as a failed request (the failure
    reaches the requester) and no response is made up in its place. *)
Theorem network_failure_reaches_requester (w : World) (req : Request) :
  (forall n c, (n, c) ∈ caches w -> c !! req = None) ->
  net (length (netlog w)) req = None ->
  (on_fetch net req w).1 = Rejected (NetworkError req)
  /\ forall r, (on_fetch net req w).1 <> Fulfilled r.
Proof.
  intros Habs Hnet. apply storage_match_None in Habs.
  rewrite (on_fetch_miss _ _ _ Habs). unfold fetch. rewrite Hnet. simpl.
  split; [done | intros r [=]].
Qed.

(** C6: installing twice with an unchanged manifest against a fresh store
    leaves exactly the stored contents that installing once leaves, when
    the network answers the manifest's requests the same way each
    time. *)
Theorem install_is_idempotent :
  stable_on_assets net ->
  caches (on_install net policy (on_install net policy fresh_world).2).2
  = caches (on_install net policy fresh_world).2.
Proof. apply install_twice. Qed.

(** C7: starting from an empty cache storage, after any sequence of
    Install and Handle Fetch operations every key of the Named Cache
    Store (the only store there is) is a path of the asset manifest; and
    Handle Fetch writes nothing to the cache storage. *)
Theorem store_keys_stay_within_manifest (history : list Event) :
  within_manifest (caches (run net policy history fresh_world))
  /\ (forall (req : Request) (w : World),
        caches (on_fetch net req w).2 = caches w).
Proof.
  split.
  - apply within_manifest_run, within_manifest_fresh.
  - apply on_fetch_caches.
Qed.

(** C9: Handle Fetch looks the request up in all the stores of the cache
    storage, not in the Named Cache Store alone: a request held by a
    store of another name is answered from the cache storage with no
    network fetch, and from a store of another name whenever no store
    named [cacheName] holds it. *)
Theorem any_store_is_served
    (w : World) (name : string) (c : Cache) (req : Request)
    (resp : Response) :
  (name, c) ∈ caches w -> name <> cacheName -> c !! req = Some resp ->
  exists n' c' resp',
    (n', c') ∈ caches w /\ c' !! req = Some resp'
    /\ on_fetch net req w = (Fulfilled resp', w)
    /\ fetched_during (on_fetch net req) w = []
    /\ ((forall c0, (cacheName, c0) ∈ caches w -> c0 !! req = None) ->
        n' <> cacheName).
Proof.
  intros Hin _ Hc.
  destruct (storage_match_held req _ _ _ _ Hin Hc) as [resp' Hm].
  destruct (storage_match_Some _ _ _ Hm) as (n' & c' & Hin' & Hc').
  exists n', c', resp'. pose proof (on_fetch_hit net _ _ _ Hm) as Hhit.
  repeat split; try done.
  - apply fetched_during_unchanged. by rewrite Hhit.
  - intros Hnone ->. specialize (Hnone _ Hin'). congruence.
Qed.

End Claims.

(** ** The claims on sample networks and worlds *)


Lemma uncached_request_witness :
  (on_fetch online (Request_of "/not-in-manifest.png") installed_world).1
  = match online (length (netlog installed_world))
            (Request_of "/not-in-manifest.png") with
    | Some r => Fulfilled r
    | None => Rejected (NetworkError (Request_of "/not-in-manifest.png"))
    end
  /\ fetched_during (on_fetch online (Request_of "/not-in-manifest.png"))
       installed_world
     = [(Request_of "/not-in-manifest.png",
         online (length (netlog installed_world))
                (Request_of "/not-in-manifest.png"))].
Proof.
  apply (uncached_request_fetched_once online installed_world).
  apply storage_match_None. by_evaluation.
Defined.

Lemma install_fails_witness :
  exists e,
    (on_install script_unreachable browser_policy fresh_world).1 = Rejected e
    /\ worker (on_install script_unreachable browser_policy fresh_world).2
       <> Active.
Proof.
  apply (install_fails_when_an_asset_fetch_fails
           script_unreachable browser_policy fresh_world
           "/static/app.js" None).
  - by_decision.
  - by_decision.
  - reflexivity.
Defined.

Lemma installed_assets_witness :
  exists resp,
    store_lookup cacheName (Request_of "/static/manifest.json") installed_world
    = Some resp
    /\ (Request_of "/static/manifest.json", Some resp)
         ∈ fetched_during (on_install online browser_policy) fresh_world
    /\ forall out,
         (Request_of "/static/manifest.json", out)
           ∈ fetched_during (on_install online browser_policy) fresh_world ->
         out = Some resp.
Proof.
  apply (installed_assets_are_stored online browser_policy fresh_world).
  - by_evaluation.
  - by_decision.
Defined.

Lemma network_failure_witness :
  (on_fetch offline (Request_of "/not-in-manifest.png") installed_world).1
  = Rejected (NetworkError (Request_of "/not-in-manifest.png"))
  /\ forall r,
       (on_fetch offline (Request_of "/not-in-manifest.png") installed_world).1
       <> Fulfilled r.
Proof.
  apply (network_failure_reaches_requester offline installed_world).
  - apply storage_match_None. by_evaluation.
  - reflexivity.
Defined.

Lemma install_is_idempotent_witness :
  caches (on_install online browser_policy
            (on_install online browser_policy fresh_world).2).2
  = caches (on_install online browser_policy fresh_world).2.
Proof.
  apply (install_is_idempotent online browser_policy).
  intros t t' p _. reflexivity.
Defined.

Lemma any_store_is_served_witness :
  exists n' c' resp',
    (n', c') ∈ caches shared_installed
    /\ c' !! Request_of "/cover.png" = Some resp'
    /\ on_fetch offline (Request_of "/cover.png") shared_installed
       = (Fulfilled resp', shared_installed)
    /\ fetched_during (on_fetch offline (Request_of "/cover.png"))
         shared_installed = []
    /\ ((forall c0, (cacheName, c0) ∈ caches shared_installed ->
                    c0 !! Request_of "/cover.png" = None) ->
        n' <> cacheName).
Proof.
  apply (any_store_is_served offline shared_installed "thumbnails"
           {[ Request_of "/cover.png" := page "a cover" ]}
           (Request_of "/cover.png") (page "a cover")).
  - by_decision.
  - by_decision.
  - by_evaluation.
Defined.


(** When the network's answers change between two installs, the second
    install replaces the stored responses. *)
Example reinstall_after_redeploy :
  store_lookup cacheName (Request_of "/")
    (on_install redeployed browser_policy fresh_world).2
  = Some (page "content of /")
  /\ store_lookup cacheName (Request_of "/")
       (on_install redeployed browser_policy
          (on_install redeployed browser_policy fresh_world).2).2
     = Some (page "release 2 of /").
Proof. split; by_evaluation. Qed.

(** The specification's end-to-end scenario. *)
Example end_to_end :
  (on_install online browser_policy fresh_world).1 = Fulfilled tt
  /\ worker installed_world = Active
  /\ on_fetch offline (Request_of "/static/app.js") installed_world
     = (Fulfilled (page "content of /static/app.js"), installed_world)
  /\ fetched_during (on_fetch online (Request_of "/not-in-manifest.png"))
       installed_world
     = [(Request_of "/not-in-manifest.png",
         Some (page "content of /not-in-manifest.png"))]
  /\ (on_fetch offline (Request_of "/not-in-manifest.png") installed_world).1
     = Rejected (NetworkError (Request_of "/not-in-manifest.png")).
Proof. repeat split; by_evaluation. Qed.

(** ** The exercise program *)

Lemma largest_step (compare : Z) (numbers : list Z) :
  foldl (fun compare num => if num >? compare then num else compare)
        compare numbers
  = foldl Z.max compare numbers.
Proof.
  revert compare. induction numbers as [|n ns IH]; intros compare; simpl;
    [done|].
  rewrite IH. f_equal. destruct (Z.gtb_spec n compare); lia.
Qed.

(** The scan starts from 0, so what it finds is the largest of 0 and the
    numbers. *)
Lemma largest_three (a b c : Z) :
  largest [a; b; c] = Z.max 0 (Z.max a (Z.max b c)).
Proof. unfold largest. rewrite largest_step. simpl. lia. Qed.

Lemma largest_three_nonnegative (a b c : Z) :
  0 <= Z.max a (Z.max b c) -> largest [a; b; c] = Z.max a (Z.max b c).
Proof. rewrite largest_three. lia. Qed.

Lemma largest_three_negative (a b c : Z) :
  Z.max a (Z.max b c) < 0 -> largest [a; b; c] = 0.
Proof. rewrite largest_three. lia. Qed.

(** *** Splitting the line *)

Lemma split_on_comma_free (s : string) :
  comma_free s = true -> split_on "," s = [s].
Proof.
  induction s as [|c s IH]; simpl; [done|].
  intros [Hc Hs]%andb_true_iff. apply negb_true_iff in Hc.
  by rewrite Hc, (IH Hs).
Qed.

Lemma split_on_comma (s t : string) :
  comma_free s = true ->
  split_on "," (s +:+ String "," t) = s :: split_on "," t.
Proof.
  induction s as [|c s IH]; simpl; [done|].
  intros [Hc Hs]%andb_true_iff. apply negb_true_iff in Hc.
  by rewrite Hc, (IH Hs).
Qed.

Lemma split_three (a b c : string) :
  comma_free a = true -> comma_free b = true -> comma_free c = true ->
  is_empty c = false ->
  split (a +:+ "," +:+ b +:+ "," +:+ c) = [a; b; c].
Proof.
  intros Ha Hb Hc Hne. unfold split.
  change ("," +:+ b +:+ "," +:+ c) with (String "," (b +:+ String "," c)).
  rewrite (split_on_comma _ _ Ha), (split_on_comma _ _ Hb),
    (split_on_comma_free _ Hc).
  simpl. by rewrite Hne.
Qed.

(** *** Printing and parsing an [int] *)

Lemma digits_cons (c : ascii) (k acc : Z) (s : string) :
  digit c = Some k -> digits acc (String c s) = digits (10 * acc + k) s.
Proof. intros H. simpl. by rewrite H. Qed.

Lemma digits_string_of_uint_acc (d : Decimal.uint) (acc : positive) :
  digits (Z.pos acc) (NilEmpty.string_of_uint d)
  = Some (Z.pos (Pos.of_uint_acc d acc)).
Proof.
  revert acc.
  induction d as [|d IH|d IH|d IH|d IH|d IH|d IH|d IH|d IH|d IH|d IH];
    intros acc; [done|..];
    cbn [NilEmpty.string_of_uint Pos.of_uint_acc];
    erewrite digits_cons by (cbv; reflexivity); rewrite <- IH; f_equal; lia.
Qed.

Lemma digits_string_of_uint (d : Decimal.uint) :
  digits 0 (NilEmpty.string_of_uint d) = Some (Z.of_N (Pos.of_uint d)).
Proof.
  induction d as [|d IH|d IH|d IH|d IH|d IH|d IH|d IH|d IH|d IH|d IH];
    [done| |
     cbn [NilEmpty.string_of_uint Pos.of_uint];
     erewrite digits_cons by (cbv; reflexivity);
     apply digits_string_of_uint_acc ..].
  cbn [NilEmpty.string_of_uint Pos.of_uint].
  erewrite digits_cons by (cbv; reflexivity). exact IH.
Qed.

Lemma comma_free_string_of_uint (d : Decimal.uint) :
  comma_free (NilEmpty.string_of_uint d) = true.
Proof. induction d; simpl; done. Qed.

Lemma to_uint_not_Nil (p : positive) : Pos.to_uint p <> Decimal.Nil.
Proof.
  intros H. pose proof (DecimalPos.Unsigned.of_to p) as E.
  rewrite H in E. discriminate.
Qed.

(** The decimal numeral of a positive number: it is not empty, has no sign
    and no comma, and its digits make up the number. *)
Lemma numeral_of_positive (p : positive) :
  exists c k s,
    NilZero.string_of_uint (Pos.to_uint p) = String c s
    /\ digit c = Some k
    /\ comma_free (String c s) = true
    /\ digits 0 (String c s) = Some (Z.pos p).
Proof.
  pose proof (to_uint_not_Nil p) as Hne.
  pose proof (digits_string_of_uint (Pos.to_uint p)) as Hd.
  rewrite DecimalPos.Unsigned.of_to in Hd.
  pose proof (comma_free_string_of_uint (Pos.to_uint p)) as Hc.
  destruct (Pos.to_uint p) as [|d|d|d|d|d|d|d|d|d|d]; [done|..];
    cbn [NilZero.string_of_uint NilEmpty.string_of_uint] in *;
    eexists _, _, _; (split; [reflexivity|]); (split; [reflexivity|]); done.
Qed.

Lemma parseInt_unsigned (c : ascii) (k : Z) (s : string) :
  digit c = Some k ->
  parseInt (String c s)
  = v ← digits 0 (String c s);
    if (Integer_MIN_VALUE <=? v) && (v <=? Integer_MAX_VALUE) then Some v
    else None.
Proof.
  destruct c as [[] [] [] [] [] [] [] []]; try discriminate; reflexivity.
Qed.

Lemma parseInt_negative (t : string) :
  parseInt (String "-" t)
  = v ← Z.opp <$> (if is_empty t then None else digits 0 t);
    if (Integer_MIN_VALUE <=? v) && (v <=? Integer_MAX_VALUE) then Some v
    else None.
Proof. reflexivity. Qed.

Lemma parseInt_format_d (n : Z) : is_int n -> parseInt (format_d n) = Some n.
Proof.
  unfold is_int, format_d. intros Hn.
  assert (Hrange :
    (Integer_MIN_VALUE <=? n) && (n <=? Integer_MAX_VALUE) = true).
  { apply andb_true_iff. split; apply Z.leb_le; lia. }
  destruct n as [|p|p]; [reflexivity|..];
    destruct (numeral_of_positive p) as (c & k & s & Hs & Hk & _ & Hd);
    cbn [Z.to_int NilZero.string_of_int]; rewrite Hs.
  - rewrite (parseInt_unsigned _ _ _ Hk), Hd.
    cbn [mbind option_bind]. by rewrite Hrange.
  - rewrite parseInt_negative. cbn [is_empty]. rewrite Hd.
    cbn [fmap option_fmap option_map mbind option_bind].
    change (- Z.pos p) with (Z.neg p). by rewrite Hrange.
Qed.

Lemma format_d_comma_free (n : Z) : comma_free (format_d n) = true.
Proof.
  unfold format_d. destruct n as [|p|p]; [reflexivity|..];
    destruct (numeral_of_positive p) as (c & k & s & Hs & _ & Hc & _);
    cbn [Z.to_int NilZero.string_of_int]; rewrite Hs; [done|].
  change (comma_free (String "-" (String c s)))
    with (comma_free (String c s)). done.
Qed.

Lemma format_d_not_empty (n : Z) : is_empty (format_d n) = false.
Proof.
  unfold format_d. destruct n as [|p|p]; [reflexivity| |reflexivity].
  destruct (numeral_of_positive p) as (c & k & s & Hs & _).
  cbn [Z.to_int NilZero.string_of_int]. by rewrite Hs.
Qed.

Lemma input_line_parsed (a b c : Z) :
  is_int a -> is_int b -> is_int c ->
  mapM parseInt (split (input_line a b c)) = Some [a; b; c].
Proof.
  intros Ha Hb Hc. unfold input_line.
  rewrite split_three by
    (apply format_d_comma_free || apply format_d_not_empty).
  cbn [mapM]. rewrite !parseInt_format_d by done. reflexivity.
Qed.

(** What [main] prints for a line that parses to three numbers. *)
Lemma main_three (line : string) (a b c : Z) :
  mapM parseInt (split line) = Some [a; b; c] ->
  main line
  = mkRun (greet +:+ prompt +:+ "The largest number out of " +:+ format_d a
             +:+ ", " +:+ format_d b +:+ " and " +:+ format_d c
             +:+ " is: " +:+ format_d (Z.max 0 (Z.max a (Z.max b c)))
             +:+ newline)
          None.
Proof. intros H. unfold main. rewrite H, largest_three. done. Qed.

(** The program on every line of three [int]s: the number it reports is
    the largest of 0 and the three. *)
Lemma main_reports_largest_with_zero (a b c : Z) :
  is_int a -> is_int b -> is_int c ->
  main (input_line a b c)
  = mkRun (greet +:+ prompt +:+ "The largest number out of " +:+ format_d a
             +:+ ", " +:+ format_d b +:+ " and " +:+ format_d c
             +:+ " is: " +:+ format_d (Z.max 0 (Z.max a (Z.max b c)))
             +:+ newline)
          None.
Proof. intros Ha Hb Hc. by apply main_three, input_line_parsed. Qed.

(** C8: the program reads three comma-separated numbers and prints the
    largest of them.  On the input [-1,-2,-3] it does not: it reports 0,
    which is none of the three, while the maximum of the three is -1. *)
Theorem largest_of_three_negatives_reported_as_zero :
  main "-1,-2,-3"
  = mkRun (greet +:+ prompt
             +:+ "The largest number out of -1, -2 and -3 is: 0" +:+ newline)
          None
  /\ largest [-1; -2; -3] = 0
  /\ Z.max (-1) (Z.max (-2) (-3)) = -1.
Proof. repeat split; by_evaluation. Qed.

Example main_on_the_sample_input :
  main "5,2,23"
  = mkRun (greet +:+ prompt
             +:+ "The largest number out of 5, 2 and 23 is: 23" +:+ newline)
          None.
Proof. by_evaluation. Qed.

Example main_rejects_spaces :
  thrown (main "5, 2, 23") = Some NumberFormatException.
Proof. by_evaluation. Qed.

Example main_needs_three_numbers :
  thrown (main "5,2") = Some ArrayIndexOutOfBoundsException.
Proof. by_evaluation. Qed.

(** * Further properties of the service worker *)

Lemma storage_find_open_other (name opened : string) (cs : CacheStorage) :
  name <> opened ->
  storage_find name (storage_open opened cs) = storage_find name cs.
Proof.
  intros Hne. unfold storage_open.
  destruct (storage_find opened cs); [done|].
  induction cs as [|[n c] cs IH]; simpl.
  - by rewrite decide_False.
  - by destruct (decide (n = name)).
Qed.

Lemma storage_find_created (name : string) (cs : CacheStorage) (c : Cache) :
  storage_find name cs = None ->
  storage_find name (cs ++ [(name, c)]) = Some c.
Proof.
  induction cs as [|[n c0] cs IH]; simpl.
  - by rewrite decide_True.
  - destruct (decide (n = name)); [done | apply IH].
Qed.

Lemma storage_find_update_other (name updated : string)
    (f : Cache -> Cache) (cs : CacheStorage) :
  name <> updated ->
  storage_find name (storage_update updated f cs) = storage_find name cs.
Proof.
  intros Hne. induction cs as [|[n c] cs IH]; simpl; [done|].
  destruct (decide (n = updated)) as [->|Hn]; simpl.
  - by rewrite !decide_False.
  - by destruct (decide (n = name)).
Qed.

Lemma put_all_lookup_other (es : list (Request * Response)) (c : Cache) k :
  k ∉ es.*1 -> put_all es c !! k = c !! k.
Proof.
  intros Hk. rewrite put_all_union. apply lookup_union_r.
  apply not_elem_of_list_to_map_1. by rewrite fmap_reverse, elem_of_reverse.
Qed.

Lemma asset_has_no_fragment (p : string) :
  p ∈ assets -> without_fragment p = p.
Proof.
  unfold assets. rewrite !elem_of_cons, elem_of_nil.
  intros [-> | [-> | [-> | []]]]; reflexivity.
Qed.

Section Worker.

Context (net : nat -> Request -> option Response).
Context (policy : Policy).

(** What a fulfilled install leaves in the named store for a manifest
    path: the response its call brought. *)
Lemma install_stores_asset (w w1 : World) (p : string) :
  on_install net policy w = (Fulfilled tt, w1) ->
  p ∈ assets ->
  exists resp,
    store_lookup cacheName (Request_of p) w1 = Some resp
    /\ (Request_of p, Some resp) ∈ calls net (length (netlog w)) assets.
Proof.
  intros Hinst Hp. rewrite on_install_run in Hinst.
  pose proof (calls_NoDup net (length (netlog w))) as Hnd.
  destruct (calls_elem net (length (netlog w)) assets p Hp) as [out Hout].
  remember (calls net (length (netlog w)) assets) as made eqn:Hmade.
  clear Hmade.
  destruct (first_rejection (verdict policy <$> made)) eqn:E; [done|].
  injection Hinst as <-.
  rewrite first_rejection_None in E.
  pose proof (E _ Hout) as Hok. simpl in Hok.
  destruct out as [resp|]; [|done]. apply negb_false_iff in Hok.
  exists resp. split; [|done].
  unfold store_lookup. cbn [caches]. rewrite storage_find_update.
  destruct (storage_find_open cacheName (caches w)) as [c0 ->]. simpl.
  apply put_all_lookup.
  - apply (sublist_NoDup _ _ Hnd), accepted_keys_sublist.
  - by apply elem_of_accepted.
Qed.

(** Where the worker's store is the only one, what it holds is what the
    fetch handler answers with. *)
Lemma served_from_named_store (w : World) (req : Request) (resp : Response) :
  within_manifest (caches w) ->
  store_lookup cacheName req w = Some resp ->
  on_fetch net req w = (Fulfilled resp, w).
Proof.
  intros Inv Hlook. unfold store_lookup in Hlook.
  destruct (storage_find cacheName (caches w)) as [c|] eqn:Hfind;
    simpl in Hlook; [|done].
  apply on_fetch_hit, (storage_match_single cacheName _ _ c); [|done..].
  intros n c' Hin. by apply (Inv n c').
Qed.

Lemma run_fetches_caches (requests : list Request) (w : World) :
  caches (run net policy (FetchEvent <$> requests) w) = caches w.
Proof.
  revert w. unfold run.
  induction requests as [|r rs IH]; intros w; simpl; [done|].
  by rewrite IH, on_fetch_caches.
Qed.

Lemma store_lookup_caches (name : string) (req : Request) (w w' : World) :
  caches w' = caches w -> store_lookup name req w' = store_lookup name req w.
Proof. unfold store_lookup. by intros ->. Qed.

(** X1: once an install has succeeded, every asset of the manifest is
    answered from the store with the response that install fetched, with
    the world left as it is, after any number of fetch events and whatever
    the network does by then. *)
Theorem assets_served_after_install
    (history : list Event) (w1 : World) (p : string) :
  on_install net policy (run net policy history fresh_world)
    = (Fulfilled tt, w1) ->
  p ∈ assets ->
  exists resp,
    (Request_of p, Some resp)
      ∈ fetched_during (on_install net policy)
          (run net policy history fresh_world)
    /\ forall requests : list Request,
         on_fetch net (Request_of p)
           (run net policy (FetchEvent <$> requests) w1)
         = (Fulfilled resp, run net policy (FetchEvent <$> requests) w1).
Proof.
  intros Hinst Hp.
  destruct (install_stores_asset _ _ _ Hinst Hp) as (resp & Hlook & Hcall).
  exists resp. split; [by rewrite on_install_fetched|].
  intros requests. apply served_from_named_store.
  - rewrite run_fetches_caches.
    replace w1 with (on_install net policy
                       (run net policy history fresh_world)).2
      by (by rewrite Hinst).
    apply within_manifest_install, within_manifest_run,
      within_manifest_fresh.
  - rewrite (store_lookup_caches _ _ w1); [done|].
    apply run_fetches_caches.
Qed.

(** X2: an install makes exactly one network call per path of the
    manifest, a GET of that path, in the manifest's order, whatever is
    stored already and whatever the calls bring back. *)
Theorem install_fetches_each_asset_once (w : World) :
  (fetched_during (on_install net policy) w).*1 = Request_of <$> assets
  /\ length (fetched_during (on_install net policy) w) = 3%nat.
Proof.
  rewrite on_install_fetched. split; [apply calls_keys|].
  transitivity (length (Request_of <$> assets)); [|reflexivity].
  by rewrite <- (calls_keys net (length (netlog w))), length_fmap.
Qed.

(** X3: an install leaves every other store, and every entry of the named
    store that is not a manifest asset, as it found them. *)
Theorem install_keeps_other_entries
    (w : World) (name : string) (req : Request) :
  name <> cacheName \/ (forall p, p ∈ assets -> req <> Request_of p) ->
  store_lookup name req (on_install net policy w).2 = store_lookup name req w.
Proof.
  intros Hother. unfold store_lookup.
  assert (Hopen :
    storage_find name (storage_open cacheName (caches w)) ≫= (.!! req)
    = storage_find name (caches w) ≫= (.!! req)).
  { destruct (decide (name = cacheName)) as [->|Hne];
      [|by rewrite storage_find_open_other].
    unfold storage_open.
    destruct (storage_find cacheName (caches w)) as [c|] eqn:E;
      [by rewrite E|].
    by rewrite (storage_find_created _ _ ∅ E). }
  assert (Hstored : forall es,
    storage_find name
      (storage_update cacheName (put_all (accepted (verdict policy <$> es)))
         (storage_open cacheName (caches w))) ≫= (.!! req)
    = storage_find name (caches w) ≫= (.!! req) \/
    exists p, p ∈ es.*1 /\ name = cacheName /\ req = p).
  { intros es. destruct (decide (name = cacheName)) as [->|Hne].
    - destruct (decide (req ∈ (accepted (verdict policy <$> es)).*1))
        as [Hin|Hnin].
      + right. exists req. split; [|done]. by eapply accepted_keys.
      + left. rewrite storage_find_update, <- Hopen.
        destruct (storage_find cacheName (storage_open cacheName (caches w)));
          simpl; [|done].
        by apply put_all_lookup_other.
    - left. by rewrite storage_find_update_other, <- Hopen. }
  rewrite on_install_run.
  destruct (Hstored (calls net (length (netlog w)) assets))
    as [Heq | (k & Hk & -> & ->)].
  - destruct (first_rejection _); cbn [snd caches]; [|done].
    by destruct (atomic policy).
  - exfalso. rewrite calls_keys in Hk.
    apply list_elem_of_fmap in Hk as (p & -> & Hp).
    destruct Hother as [Hne | Hno]; [done|]. by apply (Hno p).
Qed.

(** X4: after a successful install, the named store holds a response for
    a request exactly when the request is the GET of a manifest path. *)
Theorem installed_store_is_the_manifest
    (history : list Event) (w1 : World) (req : Request) :
  on_install net policy (run net policy history fresh_world)
    = (Fulfilled tt, w1) ->
  is_Some (store_lookup cacheName req w1)
  <-> exists p, p ∈ assets /\ req = Request_of p.
Proof.
  intros Hinst. split.
  - intros [resp Hlook]. unfold store_lookup in Hlook.
    destruct (storage_find cacheName (caches w1)) as [c|] eqn:Hfind;
      simpl in Hlook; [|done].
    assert (Inv : within_manifest (caches w1)).
    { replace w1 with (on_install net policy
                         (run net policy history fresh_world)).2
        by (by rewrite Hinst).
      apply within_manifest_install, within_manifest_run,
        within_manifest_fresh. }
    destruct (Inv _ _ (storage_find_holds _ _ _ Hfind)) as [_ Hkeys].
    apply Hkeys. by exists resp.
  - intros (p & Hp & ->).
    destruct (install_stores_asset _ _ _ Hinst Hp) as (resp & Hlook & _).
    by exists resp.
Qed.

(** X5: a request that, its URL's fragment aside, is not the GET of a
    manifest path is never answered from the store: whatever installs and
    fetches came before, the fetch handler makes one network call for it
    and settles with that call's outcome. *)
Theorem other_requests_always_reach_the_network
    (history : list Event) (req : Request) :
  (forall p, p ∈ assets ->
     mkRequest (method req) (without_fragment (url req)) <> Request_of p) ->
  (on_fetch net req (run net policy history fresh_world)).1
    = match net (length (netlog (run net policy history fresh_world))) req with
      | Some r => Fulfilled r
      | None => Rejected (NetworkError req)
      end
  /\ fetched_during (on_fetch net req) (run net policy history fresh_world)
     = [(req, net (length (netlog (run net policy history fresh_world))) req)].
Proof.
  intros Hno.
  pose proof (within_manifest_run net policy history fresh_world
                (within_manifest_fresh)) as Inv.
  remember (run net policy history fresh_world) as w eqn:Hw. clear Hw.
  assert (Habs : storage_match req (caches w) = None).
  { apply storage_match_None. intros n c Hin.
    destruct (c !! req) as [r|] eqn:E; [|done]. exfalso.
    destruct (Inv n c Hin) as [_ Hkeys].
    destruct (Hkeys req) as (p & Hp & ->); [by eexists|].
    apply (Hno p Hp). cbn [method url Request_of].
    by rewrite (asset_has_no_fragment p Hp). }
  unfold fetched_during. rewrite (on_fetch_miss _ _ _ Habs). unfold fetch.
  destruct (net (length (netlog w)) req); simpl;
    (split; [done | apply drop_app_length]).
Qed.

End Worker.

(** * Further properties of the exercise program *)

Lemma string_app_assoc (s t u : string) : (s +:+ t) +:+ u = s +:+ t +:+ u.
Proof.
  induction s as [|c s IH]; [reflexivity|].
  change (String c ((s +:+ t) +:+ u) = String c (s +:+ t +:+ u)).
  by f_equal.
Qed.

Lemma split_on_join (ss : list string) :
  ss <> [] -> Forall (fun s => comma_free s = true) ss ->
  split_on "," (join_commas ss) = ss.
Proof.
  induction ss as [|s ss IH]; [done|]. intros _ Hall.
  apply Forall_cons in Hall as [Hs Hall].
  destruct ss as [|t ss]; [by apply split_on_comma_free|].
  change (join_commas (s :: t :: ss))
    with (s +:+ String "," (join_commas (t :: ss))).
  rewrite (split_on_comma _ _ Hs). f_equal. by apply IH.
Qed.

Lemma drop_empty_prefix_rev (ss : list string) :
  Forall (fun s => is_empty s = false) ss ->
  rev (drop_empty_prefix (rev ss)) = ss.
Proof.
  intros Hall. destruct (rev ss) as [|x l] eqn:E.
  - simpl. rewrite <- (rev_involutive ss), E. done.
  - assert (Hx : is_empty x = false).
    { rewrite Forall_forall in Hall. apply Hall, list_elem_of_In, in_rev.
      rewrite E. by left. }
    simpl. rewrite Hx, <- E. apply rev_involutive.
Qed.

Lemma split_join (ss : list string) :
  ss <> [] ->
  Forall (fun s => comma_free s = true) ss ->
  Forall (fun s => is_empty s = false) ss ->
  split (join_commas ss) = ss.
Proof.
  intros Hne Hcf Hnonempty. unfold split. rewrite split_on_join by done.
  destruct ss as [|a [|b l]]; [done..|]. by apply drop_empty_prefix_rev.
Qed.

Lemma numbers_line_parsed (ns : list Z) :
  ns <> [] -> Forall is_int ns ->
  mapM parseInt (split (numbers_line ns)) = Some ns.
Proof.
  intros Hne Hall. unfold numbers_line. rewrite split_join.
  - apply mapM_fmap_Forall_Some.
    eapply Forall_impl; [exact Hall|]. apply parseInt_format_d.
  - by destruct ns.
  - apply Forall_fmap, Forall_true. intros n. apply format_d_comma_free.
  - apply Forall_fmap, Forall_true. intros n. apply format_d_not_empty.
Qed.

Lemma parseInt_out_of_range (n : Z) :
  ~ is_int n -> parseInt (format_d n) = None.
Proof.
  unfold is_int, format_d. intros Hn.
  assert (Hrange :
    (Integer_MIN_VALUE <=? n) && (n <=? Integer_MAX_VALUE) = false).
  { apply andb_false_iff.
    destruct (Z.leb_spec Integer_MIN_VALUE n); [|by left].
    destruct (Z.leb_spec n Integer_MAX_VALUE); [|by right]. lia. }
  destruct n as [|p|p];
    [exfalso; apply Hn; unfold Integer_MIN_VALUE, Integer_MAX_VALUE; lia|..];
    destruct (numeral_of_positive p) as (c & k & s & Hs & Hk & _ & Hd);
    cbn [Z.to_int NilZero.string_of_int]; rewrite Hs.
  - rewrite (parseInt_unsigned _ _ _ Hk), Hd.
    cbn [mbind option_bind]. by rewrite Hrange.
  - rewrite parseInt_negative. cbn [is_empty]. rewrite Hd.
    cbn [fmap option_fmap option_map mbind option_bind].
    change (- Z.pos p) with (Z.neg p). by rewrite Hrange.
Qed.

Lemma parseInt_space (s : string) : parseInt (String " " s) = None.
Proof. reflexivity. Qed.

Lemma foldl_max_bounds (ns : list Z) (acc : Z) :
  acc <= foldl Z.max acc ns
  /\ (forall n, n ∈ ns -> n <= foldl Z.max acc ns)
  /\ (foldl Z.max acc ns = acc \/ foldl Z.max acc ns ∈ ns).
Proof.
  revert acc. induction ns as [|m ns IH]; intros acc; simpl.
  - split; [lia|]. split; [|by left]. intros n Hn. inversion Hn.
  - destruct (IH (Z.max acc m)) as (Hacc & Hall & Hin).
    split; [lia|]. split.
    + intros n [-> | Hn]%elem_of_cons; [lia | by apply Hall].
    + destruct Hin as [Heq | Hin]; [|by right; right].
      destruct (Z.max_spec acc m) as [[_ Hm] | [_ Hm]].
      * right. rewrite Heq, Hm. left.
      * left. by rewrite Heq, Hm.
Qed.

(** X6: for a line of three or more [int]s, the program prints the first
    three of them and, as the largest, what its scan finds among all the
    numbers of the line, those after the third included. *)
Theorem main_prints_first_three (a b c : Z) (more : list Z) :
  Forall is_int (a :: b :: c :: more) ->
  main (numbers_line (a :: b :: c :: more))
  = mkRun (greet +:+ prompt +:+ "The largest number out of " +:+ format_d a
             +:+ ", " +:+ format_d b +:+ " and " +:+ format_d c
             +:+ " is: " +:+ format_d (largest (a :: b :: c :: more))
             +:+ newline)
          None.
Proof.
  intros Hall. unfold main. by rewrite numbers_line_parsed.
Qed.

(** X7: what the scan finds, for any numbers: it is never negative, it is
    at least each of the numbers, and it is 0 or one of the numbers. *)
Theorem largest_bounds (numbers : list Z) :
  0 <= largest numbers
  /\ (forall n, n ∈ numbers -> n <= largest numbers)
  /\ (largest numbers = 0 \/ largest numbers ∈ numbers).
Proof. unfold largest. rewrite largest_step. apply foldl_max_bounds. Qed.

(** X8: when the largest of three [int]s is not negative, the program
    reports exactly that number. *)
Theorem main_right_when_largest_is_not_negative (a b c : Z) :
  is_int a -> is_int b -> is_int c ->
  0 <= Z.max a (Z.max b c) ->
  main (input_line a b c)
  = mkRun (greet +:+ prompt +:+ "The largest number out of " +:+ format_d a
             +:+ ", " +:+ format_d b +:+ " and " +:+ format_d c
             +:+ " is: " +:+ format_d (Z.max a (Z.max b c)) +:+ newline)
          None.
Proof.
  intros Ha Hb Hc Hmax.
  rewrite (main_three _ a b c) by by apply input_line_parsed.
  by rewrite (Z.max_r 0) by done.
Qed.

(** X9: a line of one or two [int]s makes the program end with an
    [ArrayIndexOutOfBoundsException], after the greeting and the prompt
    and with no result printed. *)
Theorem main_needs_three (ns : list Z) :
  Forall is_int ns -> (0 < length ns < 3)%nat ->
  main (numbers_line ns)
  = mkRun (greet +:+ prompt) (Some ArrayIndexOutOfBoundsException).
Proof.
  intros Hall Hlen. unfold main.
  rewrite numbers_line_parsed by (by destruct ns; simpl in *; try lia).
  destruct ns as [|a [|b [|c ns]]]; simpl in *; try lia; done.
Qed.

(** X10: if any of the three numbers typed does not fit an [int], the
    program ends with a [NumberFormatException] and prints no result. *)
Theorem main_rejects_numbers_beyond_int (a b c : Z) :
  ~ (is_int a /\ is_int b /\ is_int c) ->
  main (input_line a b c)
  = mkRun (greet +:+ prompt) (Some NumberFormatException).
Proof.
  intros Hnot. unfold main, input_line.
  rewrite split_three by
    (apply format_d_comma_free || apply format_d_not_empty).
  rewrite (mapM_None_2 parseInt); [done|].
  destruct (decide (is_int a)) as [Ha|Ha];
    [|by left; apply parseInt_out_of_range].
  destruct (decide (is_int b)) as [Hb|Hb];
    [|by right; left; apply parseInt_out_of_range].
  destruct (decide (is_int c)) as [Hc|Hc];
    [by destruct Hnot|].
  by right; right; left; apply parseInt_out_of_range.
Qed.

(** X11: numbers typed with a space after the commas are not accepted:
    the program ends with a [NumberFormatException], whatever the numbers
    are. *)
Theorem main_rejects_spaces_after_commas (a b c : Z) :
  main (spaced_line a b c)
  = mkRun (greet +:+ prompt) (Some NumberFormatException).
Proof.
  unfold main, spaced_line.
  change (format_d a +:+ ", " +:+ format_d b +:+ ", " +:+ format_d c)
    with (format_d a +:+ "," +:+ String " " (format_d b) +:+ ","
            +:+ String " " (format_d c)).
  rewrite split_three; [| |simpl..|reflexivity];
    [|apply format_d_comma_free..].
  rewrite (mapM_None_2 parseInt); [done|].
  right. left. apply parseInt_space.
Qed.

(** X12: a comma typed after the third number changes nothing. *)
Theorem main_ignores_a_trailing_comma (a b c : Z) :
  main (input_line a b c +:+ ",") = main (input_line a b c).
Proof.
  assert (Hsplit : split (input_line a b c +:+ ",")
                   = split (input_line a b c)).
  { unfold input_line.
    rewrite split_three by
      (apply format_d_comma_free || apply format_d_not_empty).
    rewrite !string_app_assoc. unfold split.
    change ("," +:+ format_d b +:+ "," +:+ format_d c +:+ ",")
      with (String "," (format_d b +:+ String ","
                          (format_d c +:+ String "," ""))).
    rewrite !split_on_comma by apply format_d_comma_free.
    simpl. by rewrite format_d_not_empty. }
  unfold main. by rewrite Hsplit.
Qed.

(** * Properties of the page script *)

Lemma forEach_appends (items : list JSON) (texts : list string)
    (children : list Li) (entries : list ConsoleEntry) :
  Forall2 (fun item text => text_for item = Some text) items texts ->
  forEach items (fun file => and_then (li_with_text file) appendChild)
          (mkDocument (Some children) entries)
  = (Done tt, mkDocument (Some (children ++ (mkLi <$> texts))) entries).
Proof.
  intros Hall. revert children.
  induction Hall as [|item text items texts Htext _ IH]; intros children.
  - simpl. unfold settled. by rewrite app_nil_r.
  - cbn [forEach]. unfold and_then at 1 2, li_with_text, settled at 1.
    rewrite Htext. unfold appendChild at 1. cbn [file_list console].
    rewrite IH, <- app_assoc. done.
Qed.

Lemma forEach_stops (before after : list JSON) (bad : JSON)
    (texts : list string) (children : list Li)
    (entries : list ConsoleEntry) :
  Forall2 (fun item text => text_for item = Some text) before texts ->
  text_for bad = None ->
  forEach (before ++ bad :: after)
          (fun file => and_then (li_with_text file) appendChild)
          (mkDocument (Some children) entries)
  = (Uncaught (TypeError "file cannot be converted to a string"),
     mkDocument (Some (children ++ (mkLi <$> texts))) entries).
Proof.
  intros Hall Hbad. revert children.
  induction Hall as [|item text items texts Htext _ IH]; intros children.
  - cbn [app forEach]. unfold and_then, li_with_text, settled.
    rewrite Hbad. simpl. by rewrite app_nil_r.
  - cbn [app forEach]. unfold and_then at 1 2, li_with_text, settled at 1.
    rewrite Htext. unfold appendChild at 1. cbn [file_list console].
    rewrite IH, <- app_assoc. done.
Qed.

Lemma names_have_their_text (names : list string) :
  Forall2 (fun item text => text_for item = Some text)
          (JString <$> names) names.
Proof. induction names as [|n ns IH]; simpl; by constructor. Qed.

Section Page.

Context (window_fetch : string -> Settled Response).
Context (JSON_parse : string -> option JSON).

Lemma on_DOMContentLoaded_array (res : Response) (items : list JSON)
    (d : Document) :
  window_fetch "/files" = Fulfilled res ->
  JSON_parse (body res) = Some (JArray items) ->
  on_DOMContentLoaded window_fetch JSON_parse d
  = forEach items (fun file => and_then (li_with_text file) appendChild) d.
Proof.
  intros Hfetch Hparse.
  unfold on_DOMContentLoaded, and_then at 1 2, settled, res_json.
  rewrite Hfetch. simpl. by rewrite Hparse.
Qed.

(** X13: when [/files] is answered, whatever the status, with a JSON array
    of file names, the page gets one [li] per name, with the name as its
    text, in the array's order and after the children the list already
    has; nothing is written to the console and no error is raised. *)
Theorem file_names_are_listed
    (res : Response) (names : list string)
    (children : list Li) (entries : list ConsoleEntry) :
  window_fetch "/files" = Fulfilled res ->
  JSON_parse (body res) = Some (JArray (JString <$> names)) ->
  on_DOMContentLoaded window_fetch JSON_parse
    (mkDocument (Some children) entries)
  = (Done tt, mkDocument (Some (children ++ (mkLi <$> names))) entries).
Proof.
  intros Hfetch Hparse.
  rewrite (on_DOMContentLoaded_array _ _ _ Hfetch Hparse).
  apply forEach_appends, names_have_their_text.
Qed.

(** X14: an array whose elements can all be converted to a string, of
    whatever kind they are, gives one [li] per element, in order and none
    skipped, with the converted text ([null] gives an empty text); the
    chain ends without error. *)
Theorem every_array_element_is_listed
    (res : Response) (items : list JSON) (texts : list string)
    (children : list Li) (entries : list ConsoleEntry) :
  window_fetch "/files" = Fulfilled res ->
  JSON_parse (body res) = Some (JArray items) ->
  Forall2 (fun item text => text_for item = Some text) items texts ->
  on_DOMContentLoaded window_fetch JSON_parse
    (mkDocument (Some children) entries)
  = (Done tt, mkDocument (Some (children ++ (mkLi <$> texts))) entries).
Proof.
  intros Hfetch Hparse Hall.
  rewrite (on_DOMContentLoaded_array _ _ _ Hfetch Hparse).
  by apply forEach_appends.
Qed.

(** X20: at the first element of the array that cannot be converted to a
    string (an object with a member [toString], or an array holding one)
    the listener stops with an uncaught [TypeError]: the elements before
    it are listed, it and the elements after it are not. *)
Theorem listing_stops_at_an_unconvertible_element
    (res : Response) (before after : list JSON) (bad : JSON)
    (texts : list string) (children : list Li)
    (entries : list ConsoleEntry) :
  window_fetch "/files" = Fulfilled res ->
  JSON_parse (body res) = Some (JArray (before ++ bad :: after)) ->
  Forall2 (fun item text => text_for item = Some text) before texts ->
  text_for bad = None ->
  exists what,
    on_DOMContentLoaded window_fetch JSON_parse
      (mkDocument (Some children) entries)
    = (Uncaught (TypeError what),
       mkDocument (Some (children ++ (mkLi <$> texts))) entries).
Proof.
  intros Hfetch Hparse Hall Hbad. eexists.
  rewrite (on_DOMContentLoaded_array _ _ _ Hfetch Hparse).
  by apply forEach_stops.
Qed.

(** X15: when the request for [/files] fails, or the answer is not JSON,
    or the JSON is not an array, the document is left exactly as it was
    and the chain ends with an error nobody catches. *)
Theorem failed_listing_leaves_the_document (d : Document) :
  (forall res items,
     window_fetch "/files" = Fulfilled res ->
     JSON_parse (body res) <> Some (JArray items)) ->
  exists e, on_DOMContentLoaded window_fetch JSON_parse d = (Uncaught e, d).
Proof.
  intros Hbad.
  unfold on_DOMContentLoaded, and_then, settled, res_json.
  destruct (window_fetch "/files") as [res|e] eqn:Hfetch; simpl;
    [|by eexists].
  specialize (Hbad res).
  destruct (JSON_parse (body res)) as [files|]; [|by eexists].
  destruct files as [| | | |items|]; simpl; try by eexists.
  by destruct (Hbad items).
Qed.

(** X16: on a page without the element [file_list] the document is never
    changed.  An empty listing passes unnoticed; any other listing ends,
    at its first element and whatever follows it, with an uncaught
    [TypeError]: raised by [list.appendChild] on the missing list, or
    before that by [li.textContent = file] when that element cannot be
    converted to a string. *)
Theorem missing_list_element
    (res : Response) (items : list JSON) (d : Document) :
  file_list d = None ->
  window_fetch "/files" = Fulfilled res ->
  JSON_parse (body res) = Some (JArray items) ->
  on_DOMContentLoaded window_fetch JSON_parse d
  = (match items with
     | [] => Done tt
     | first :: _ =>
         Uncaught (TypeError (match text_for first with
                              | Some _ => "list is null"
                              | None => "file cannot be converted to a string"
                              end))
     end, d).
Proof.
  intros Hlist Hfetch Hparse.
  rewrite (on_DOMContentLoaded_array _ _ _ Hfetch Hparse).
  destruct items as [|item items]; [done|].
  cbn [forEach]. unfold and_then, li_with_text, settled, appendChild.
  destruct (text_for item); [|done]. by rewrite Hlist.
Qed.

End Page.

Section Registration.

Context (serviceWorker_in_navigator : bool).
Context (register : string -> Completion unit).

(** X17: registering the worker never ends with an uncaught error and
    never touches the list.  Where the browser has service workers it
    writes exactly one console entry, the registration message or the
    failure with its reason; elsewhere it writes nothing. *)
Theorem registration_is_reported (d : Document) :
  (register_service_worker serviceWorker_in_navigator register d).1 = Done tt
  /\ file_list
      (register_service_worker serviceWorker_in_navigator register d).2
     = file_list d
  /\ console
      (register_service_worker serviceWorker_in_navigator register d).2
     = console d ++
       (if serviceWorker_in_navigator then
          [match register "service-worker.js" with
           | Done _ => console_log "Service Worker Registered"
           | Uncaught e =>
               console_error "Service Worker registration failed:" e
           end]
        else []).
Proof.
  unfold register_service_worker, or_catch, and_then, settled, log.
  destruct serviceWorker_in_navigator; simpl; [|by rewrite app_nil_r].
  by destruct (register "service-worker.js").
Qed.

End Registration.

Section ControlledPage.

Context (net : nat -> Request -> option Response).
Context (policy : Policy).
Context (JSON_parse : string -> option JSON).

Lemma files_not_in_manifest (p : string) :
  p ∈ assets -> Request_of "/files" <> Request_of p.
Proof.
  intros Hp [= <-]. revert Hp. by_decision.
Qed.

Lemma files_not_stored (history : list Event) :
  storage_match (Request_of "/files")
    (caches (run net policy history fresh_world)) = None.
Proof.
  pose proof (within_manifest_run net policy history fresh_world
                within_manifest_fresh) as Inv.
  apply storage_match_None. intros n c Hin.
  destruct (c !! Request_of "/files") as [r|] eqn:E; [|done]. exfalso.
  destruct (Inv n c Hin) as [_ Hkeys].
  destruct (Hkeys (Request_of "/files")) as (p & Hp & Heq); [by eexists|].
  by apply (files_not_in_manifest p).
Qed.

(** X18: the worker never stands between the page and its listing: after
    any installs and fetches, the page controlled by the worker lists
    exactly what it would list with no worker, the network's answer of the
    moment. *)
Theorem listing_is_never_served_from_the_store
    (history : list Event) (d : Document) :
  on_DOMContentLoaded
    (fetch_through_worker net (run net policy history fresh_world))
    JSON_parse d
  = on_DOMContentLoaded
      (fetch_from_network net (run net policy history fresh_world))
      JSON_parse d.
Proof.
  unfold on_DOMContentLoaded, fetch_through_worker, fetch_from_network.
  by rewrite (on_fetch_miss _ _ _ (files_not_stored history)).
Qed.

(** X19: without the network the page lists nothing, however often the
    worker was installed before: the request for [/files] fails, the error
    is not caught and the document stays as it was. *)
Theorem no_listing_without_network (history : list Event) (d : Document) :
  net (length (netlog (run net policy history fresh_world)))
      (Request_of "/files") = None ->
  on_DOMContentLoaded
    (fetch_through_worker net (run net policy history fresh_world))
    JSON_parse d
  = (Uncaught (FetchError (NetworkError (Request_of "/files"))), d).
Proof.
  intros Hnet.
  unfold on_DOMContentLoaded, fetch_through_worker, and_then, settled.
  rewrite (on_fetch_miss _ _ _ (files_not_stored history)).
  unfold fetch. by rewrite Hnet.
Qed.

End ControlledPage.

(** ** The further properties on samples *)

Lemma assets_served_after_install_witness :
  exists resp,
    (Request_of "/static/app.js", Some resp)
      ∈ fetched_during (on_install online_then_offline browser_policy)
          (run online_then_offline browser_policy [] fresh_world)
    /\ forall requests : list Request,
         on_fetch online_then_offline (Request_of "/static/app.js")
           (run online_then_offline browser_policy (FetchEvent <$> requests)
              installed_then_offline)
         = (Fulfilled resp,
            run online_then_offline browser_policy (FetchEvent <$> requests)
              installed_then_offline).
Proof.
  apply (assets_served_after_install online_then_offline browser_policy []
           installed_then_offline "/static/app.js").
  - by_evaluation.
  - by_decision.
Defined.

Lemma install_keeps_other_entries_witness :
  store_lookup "thumbnails" (Request_of "/cover.png")
    (on_install online browser_policy shared_origin).2
  = store_lookup "thumbnails" (Request_of "/cover.png") shared_origin.
Proof.
  apply (install_keeps_other_entries online browser_policy shared_origin).
  left. by_decision.
Defined.

Lemma installed_store_is_the_manifest_witness :
  is_Some (store_lookup cacheName (Request_of "/") installed_world)
  <-> exists p, p ∈ assets /\ Request_of "/" = Request_of p.
Proof.
  apply (installed_store_is_the_manifest online browser_policy []).
  by_evaluation.
Defined.

Lemma other_requests_witness :
  (on_fetch offline (Request_of "/files")
     (run offline browser_policy [InstallEvent] fresh_world)).1
  = match offline
            (length (netlog (run offline browser_policy [InstallEvent]
                               fresh_world)))
            (Request_of "/files") with
    | Some r => Fulfilled r
    | None => Rejected (NetworkError (Request_of "/files"))
    end
  /\ fetched_during (on_fetch offline (Request_of "/files"))
       (run offline browser_policy [InstallEvent] fresh_world)
     = [(Request_of "/files",
         offline
           (length (netlog (run offline browser_policy [InstallEvent]
                              fresh_world)))
           (Request_of "/files"))].
Proof.
  apply (other_requests_always_reach_the_network offline browser_policy
           [InstallEvent] (Request_of "/files")).
  intros p Hp [= <-]. revert Hp. by_decision.
Defined.

Lemma main_prints_first_three_witness :
  main (numbers_line [5; -2; 23; 99])
  = mkRun (greet +:+ prompt +:+ "The largest number out of " +:+ format_d 5
             +:+ ", " +:+ format_d (-2) +:+ " and " +:+ format_d 23
             +:+ " is: " +:+ format_d (largest [5; -2; 23; 99])
             +:+ newline)
          None.
Proof. apply (main_prints_first_three 5 (-2) 23 [99]). by_decision. Defined.

Lemma main_right_witness :
  main (input_line (-5) 0 (-7))
  = mkRun (greet +:+ prompt +:+ "The largest number out of "
             +:+ format_d (-5) +:+ ", " +:+ format_d 0 +:+ " and "
             +:+ format_d (-7) +:+ " is: "
             +:+ format_d (Z.max (-5) (Z.max 0 (-7))) +:+ newline)
          None.
Proof.
  apply (main_right_when_largest_is_not_negative (-5) 0 (-7));
    by_decision.
Defined.

Lemma main_needs_three_witness :
  main (numbers_line [5; 2])
  = mkRun (greet +:+ prompt) (Some ArrayIndexOutOfBoundsException).
Proof.
  apply (main_needs_three [5; 2]); [by_decision | simpl; lia].
Defined.

Lemma main_rejects_beyond_int_witness :
  main (input_line 1 2147483648 3)
  = mkRun (greet +:+ prompt) (Some NumberFormatException).
Proof.
  apply (main_rejects_numbers_beyond_int 1 2147483648 3). by_decision.
Defined.

Lemma file_names_are_listed_witness :
  on_DOMContentLoaded (fetch_from_network comic_server fresh_world)
    listing_parse (mkDocument (Some [mkLi "readme.txt"]) [])
  = (Done tt,
     mkDocument (Some ([mkLi "readme.txt"]
                         ++ (mkLi <$> ["batman.cbz"; "saga.cbz"]))) []).
Proof.
  apply (file_names_are_listed (fetch_from_network comic_server fresh_world)
           listing_parse (mkResponse 200 [] listing_body));
    by_evaluation.
Defined.

Lemma every_array_element_witness :
  on_DOMContentLoaded (fetch_from_network odd_server fresh_world)
    listing_parse (mkDocument (Some []) [])
  = (Done tt, mkDocument (Some ([] ++ (mkLi <$> [""; "3"]))) []).
Proof.
  apply (every_array_element_is_listed
           (fetch_from_network odd_server fresh_world) listing_parse
           (mkResponse 200 [] "[null,3]") [JNull; JNumber "3"]).
  - by_evaluation.
  - by_evaluation.
  - repeat constructor.
Defined.

Lemma listing_stops_witness :
  exists what,
    on_DOMContentLoaded (fetch_from_network broken_server fresh_world)
      listing_parse (mkDocument (Some []) [])
    = (Uncaught (TypeError what),
       mkDocument (Some ([] ++ (mkLi <$> ["ok"]))) []).
Proof.
  apply (listing_stops_at_an_unconvertible_element
           (fetch_from_network broken_server fresh_world) listing_parse
           (mkResponse 200 [] broken_listing_body)
           [JString "ok"] [JString "after"]
           (JObject [("toString", JNumber "1")])).
  - by_evaluation.
  - by_evaluation.
  - repeat constructor.
  - by_evaluation.
Defined.

Lemma failed_listing_witness :
  exists e,
    on_DOMContentLoaded (fetch_from_network online fresh_world) listing_parse
      empty_list_page
    = (Uncaught e, empty_list_page).
Proof.
  apply (failed_listing_leaves_the_document
           (fetch_from_network online fresh_world) listing_parse).
  intros res items [= <-]. vm_compute. discriminate.
Defined.

Lemma missing_list_element_witness :
  on_DOMContentLoaded (fetch_from_network comic_server fresh_world)
    listing_parse page_without_list
  = (match [JString "batman.cbz"; JString "saga.cbz"] with
     | [] => Done tt
     | first :: _ =>
         Uncaught (TypeError (match text_for first with
                              | Some _ => "list is null"
                              | None => "file cannot be converted to a string"
                              end))
     end, page_without_list).
Proof.
  apply (missing_list_element (fetch_from_network comic_server fresh_world)
           listing_parse (mkResponse 200 [] listing_body));
    by_evaluation.
Defined.

Lemma no_listing_without_network_witness :
  on_DOMContentLoaded
    (fetch_through_worker online_then_offline
       (run online_then_offline browser_policy [InstallEvent] fresh_world))
    listing_parse empty_list_page
  = (Uncaught (FetchError (NetworkError (Request_of "/files"))),
     empty_list_page).
Proof.
  apply (no_listing_without_network online_then_offline browser_policy
           listing_parse [InstallEvent]).
  by_evaluation.
Defined.
